(** * Taskrunner: delivery workflow, service booking and offline queue

    A shallow embedding of the client code that drives the delivery
    life cycle (the driver's deliveries screen), of the booking handler
    of the service detail screen, and of the [useOfflineQueue] hook,
    together with the tables of the migrations they write to.

    Conventions.
    - A Supabase call is a [Request] value; the handlers run in a small
      state monad over the database, the request log and the oracle that
      says what happens to each request (reachable or not, server clock,
      the uuid the server would generate). Every request is made as the
      signed-in user: [auth.uid()] is the [user?.id] of the screen.
    - Tables are lists of rows. Primary keys, UNIQUE columns, CHECK
      constraints, column defaults and the [updated_at] triggers of the
      migrations are part of the model, and so are the row-level-security
      policies of [deliveries], which decide what an update or a select
      of the deliveries screen reaches. The policies of the other tables
      admit every request the modelled handlers send under their guards
      (the payload's [driver_id] or [client_id] is the caller's id) and
      are left out, as are foreign keys.
    - A number of the request body is a decimal literal; a [decimal]
      column keeps it rounded to the column's scale, as a fixed-point
      integer.
    - The actions of the offline queue are objects in a store, and the
      arrays hold references to them, so that the in-place update of
      [retryCount] is seen through every array that holds the action.
      The hook is a transition system whose steps are the stretches of
      code between two [await]s, so that calls in flight interleave. *)

From Stdlib Require Import String ZArith List Bool Arith Lia DecimalString Sorted.
Import ListNotations.
Open Scope string_scope.
Open Scope list_scope.

(** ** Results of a statement run by the database *)

Inductive PgResult (A : Type) : Type :=
| PgOk (a : A)
| PgError (code : string).
Arguments PgOk {A} a.
Arguments PgError {A} code.

(** SQLSTATE codes raised by the constraints of the schema. *)
Definition unique_violation : string := "23505".
Definition check_violation : string := "23514".
Definition undefined_column : string := "42703".
Definition insufficient_privilege : string := "42501".

(** [x ?? d]: the value of an optional property, or the column's old
    value / default when the property is absent from the payload. *)
Definition or_keep {A : Type} (new : option A) (old : A) : A :=
  match new with
  | Some a => a
  | None => old
  end.

(** The key of an optional property, when the payload carries it. *)
Definition key_of {A : Type} (k : string) (v : option A) : list string :=
  match v with
  | Some _ => [k]
  | None => []
  end.

(** A number of a request body: the decimal literal
    [digits] x 10^-[scale]. *)
Record Decimal : Type := mkDecimal {
  digits : Z;
  scale : nat
}.

(** What a [decimal(p, s)] column keeps of a number: the number
    rounded to [s] fractional digits, half away from zero, counted in
    units of 10^-[s]. *)
Definition to_scale (s : nat) (d : Decimal) : Z :=
  if (scale d <=? s)%nat then (digits d * 10 ^ Z.of_nat (s - scale d))%Z
  else
    let p := (10 ^ Z.of_nat (scale d - s))%Z in
    (Z.sgn (digits d) * ((Z.abs (digits d) + p / 2) / p))%Z.

Definition mem_string (s : string) (l : list string) : bool :=
  existsb (String.eqb s) l.

Fixpoint distinct (l : list string) : bool :=
  match l with
  | [] => true
  | x :: r => negb (mem_string x r) && distinct r
  end.

(** ** Table [deliveries] *)

Module deliveries.

Record Row : Type := mkRow {
  id : string;
  service_request_id : string;
  driver_id : option string;
  pickup_location : string;
  delivery_location : string;
  status : string;
  estimated_delivery_time : option string;
  actual_delivery_time : option string;
  delivery_fee : option Z;
  distance_km : option Z;
  driver_notes : option string;
  created_at : string;
  updated_at : string
}.

(** The [Update] type of the table: every column optional. A nullable
    column carries [Some None] when the payload sets it to null. *)
Record Update : Type := mkUpdate {
  set_id : option string;
  set_service_request_id : option string;
  set_driver_id : option (option string);
  set_pickup_location : option string;
  set_delivery_location : option string;
  set_status : option string;
  set_estimated_delivery_time : option (option string);
  set_actual_delivery_time : option (option string);
  set_delivery_fee : option (option Z);
  set_distance_km : option (option Z);
  set_driver_notes : option (option string);
  set_created_at : option string;
  set_updated_at : option string
}.

(** The names of the columns a payload mentions, in declaration order. *)
Definition keys (u : Update) : list string :=
  key_of "id" (set_id u) ++
  key_of "service_request_id" (set_service_request_id u) ++
  key_of "driver_id" (set_driver_id u) ++
  key_of "pickup_location" (set_pickup_location u) ++
  key_of "delivery_location" (set_delivery_location u) ++
  key_of "status" (set_status u) ++
  key_of "estimated_delivery_time" (set_estimated_delivery_time u) ++
  key_of "actual_delivery_time" (set_actual_delivery_time u) ++
  key_of "delivery_fee" (set_delivery_fee u) ++
  key_of "distance_km" (set_distance_km u) ++
  key_of "driver_notes" (set_driver_notes u) ++
  key_of "created_at" (set_created_at u) ++
  key_of "updated_at" (set_updated_at u).

(** CHECK (status IN (...)). *)
Definition statuses : list string :=
  ["pending"; "assigned"; "picked_up"; "in_transit"; "delivered"; "cancelled"].

Definition status_check (r : Row) : bool := mem_string (status r) statuses.

(** UPDATE ... SET on one row, followed by the BEFORE UPDATE trigger
    [handle_updated_at], which overwrites [updated_at] with [now()]. *)
Definition set_row (now : string) (u : Update) (r : Row) : Row :=
  {| id := or_keep (set_id u) (id r);
     service_request_id := or_keep (set_service_request_id u) (service_request_id r);
     driver_id := or_keep (set_driver_id u) (driver_id r);
     pickup_location := or_keep (set_pickup_location u) (pickup_location r);
     delivery_location := or_keep (set_delivery_location u) (delivery_location r);
     status := or_keep (set_status u) (status r);
     estimated_delivery_time :=
       or_keep (set_estimated_delivery_time u) (estimated_delivery_time r);
     actual_delivery_time := or_keep (set_actual_delivery_time u) (actual_delivery_time r);
     delivery_fee := or_keep (set_delivery_fee u) (delivery_fee r);
     distance_km := or_keep (set_distance_km u) (distance_km r);
     driver_notes := or_keep (set_driver_notes u) (driver_notes r);
     created_at := or_keep (set_created_at u) (created_at r);
     updated_at := now |}.

(** Horizontal filters of a request: [.eq(column, value)] and
    [.is(column, null)]. *)
Inductive Filter : Type :=
| eq (column value : string)
| is_null (column : string).

(** The text of a filterable column: [None] for a column the model
    does not filter on, [Some None] for SQL NULL. *)
Definition column (c : string) (r : Row) : option (option string) :=
  if String.eqb c "id" then Some (Some (id r))
  else if String.eqb c "service_request_id" then Some (Some (service_request_id r))
  else if String.eqb c "driver_id" then Some (driver_id r)
  else if String.eqb c "status" then Some (Some (status r))
  else None.

Definition holds (r : Row) (f : Filter) : bool :=
  match f with
  | eq c v =>
      match column c r with
      | Some (Some x) => String.eqb x v
      | _ => false
      end
  | is_null c =>
      match column c r with
      | Some None => true
      | _ => false
      end
  end.

Definition selected (fs : list Filter) (r : Row) : bool := forallb (holds r) fs.

(** Row-level security is enabled on the table. The policy "Drivers
    can update their assigned deliveries" is
    [FOR UPDATE TO authenticated USING (driver_id = auth.uid())]: a
    row whose driver is null, or another user, is not visible to the
    caller's UPDATE, and nobody's is when no user is signed in. The
    SELECT policy, which an UPDATE with a WHERE clause must also pass,
    has the same condition as its first alternative and adds nothing
    here. *)
Definition assigned_to (uid : option string) (r : Row) : bool :=
  match driver_id r, uid with
  | Some d, Some u => String.eqb d u
  | _, _ => false
  end.

(** The policy has no WITH CHECK, so its USING expression is also
    checked on the new version of each row, before the constraints
    of the table. *)
Definition refused (uid : option string) (new : Row) : option string :=
  if negb (assigned_to uid new) then Some insufficient_privilege
  else if negb (status_check new) then Some check_violation
  else None.

Fixpoint first_refusal (uid : option string) (l : list Row) : option string :=
  match l with
  | [] => None
  | r :: t =>
      match refused uid r with
      | Some c => Some c
      | None => first_refusal uid t
      end
  end.

(** The rows an UPDATE of the caller [uid] reaches. *)
Definition target (uid : option string) (fs : list Filter) (r : Row) : bool :=
  selected fs r && assigned_to uid r.

(** UPDATE deliveries SET ... WHERE <filters>, run as [uid]. A row
    the policy hides is not an error: it is simply not updated. The
    statement is rejected as a whole when a changed row breaks the
    policy, the status CHECK or the primary key. *)
Definition update (uid : option string) (now : string) (u : Update)
    (fs : list Filter) (tbl : list Row) : PgResult (list Row) :=
  let tbl' := map (fun r => if target uid fs r then set_row now u r else r) tbl in
  match first_refusal uid (map (set_row now u) (filter (target uid fs) tbl)) with
  | Some c => PgError c
  | None =>
      if negb (distinct (map id tbl')) then PgError unique_violation
      else PgOk tbl'
  end.

(** The row with a given primary key. *)
Definition find (k : string) (tbl : list Row) : option Row :=
  List.find (fun r => String.eqb (id r) k) tbl.

(** What an update of [uid] filtered on the key [k] alone does to a
    row. *)
Definition by_id (uid : option string) (now k : string) (u : Update) (r : Row) : Row :=
  if String.eqb (id r) k && assigned_to uid r then set_row now u r else r.

End deliveries.

(** ** Table [driver_locations] *)

Module driver_locations.

Record Row : Type := mkRow {
  id : string;
  driver_id : string;
  latitude : option Z;
  longitude : option Z;
  is_available : bool;
  updated_at : string
}.

(** The [Insert] type of the table, as it reaches the server: a
    property whose JavaScript value is [undefined] is dropped by the
    JSON encoding of the request body, so it is absent ([None]) here;
    [Some None] is an explicit null. *)
Record Insert : Type := mkInsert {
  ins_id : option string;
  ins_driver_id : string;
  ins_latitude : option (option Decimal);
  ins_longitude : option (option Decimal);
  ins_is_available : option bool;
  ins_updated_at : option string
}.

Definition keys (v : Insert) : list string :=
  key_of "id" (ins_id v) ++ ["driver_id"] ++
  key_of "latitude" (ins_latitude v) ++
  key_of "longitude" (ins_longitude v) ++
  key_of "is_available" (ins_is_available v) ++
  key_of "updated_at" (ins_updated_at v).

(** [latitude decimal(10,8)] and [longitude decimal(11,8)]: both
    columns keep eight fractional digits; their two and three integer
    digits hold every latitude and longitude. *)
Definition stored_coordinate (x : option Decimal) : option Z :=
  option_map (to_scale 8) x.

(** INSERT: absent columns take their defaults
    ([gen_random_uuid()], NULL, NULL, false, [now()]). *)
Definition new_row (uuid now : string) (v : Insert) : Row :=
  {| id := or_keep (ins_id v) uuid;
     driver_id := ins_driver_id v;
     latitude := or_keep (option_map stored_coordinate (ins_latitude v)) None;
     longitude := or_keep (option_map stored_coordinate (ins_longitude v)) None;
     is_available := or_keep (ins_is_available v) false;
     updated_at := or_keep (ins_updated_at v) now |}.

(** ON CONFLICT ... DO UPDATE SET: the columns of the payload are
    overwritten, the others kept; the BEFORE UPDATE trigger then
    stamps [updated_at]. *)
Definition merge_row (now : string) (v : Insert) (r : Row) : Row :=
  {| id := or_keep (ins_id v) (id r);
     driver_id := ins_driver_id v;
     latitude := or_keep (option_map stored_coordinate (ins_latitude v)) (latitude r);
     longitude := or_keep (option_map stored_coordinate (ins_longitude v)) (longitude r);
     is_available := or_keep (ins_is_available v) (is_available r);
     updated_at := now |}.

Definition has_id (k : string) (r : Row) : bool := String.eqb (id r) k.
Definition has_driver (d : string) (r : Row) : bool := String.eqb (driver_id r) d.

(** The arbiter of an upsert. PostgREST resolves duplicates on the
    columns named by [on_conflict]; without the parameter it
    resolves them on the primary key. *)
Inductive Arbiter : Type :=
| on_primary_key
| on_driver_id.

Definition arbiter (onConflict : option string) : option Arbiter :=
  match onConflict with
  | None => Some on_primary_key
  | Some c =>
      if String.eqb c "id" then Some on_primary_key
      else if String.eqb c "driver_id" then Some on_driver_id
      else None
  end.

(** Does the proposed row collide with an existing one on the arbiter? *)
Definition duplicate (a : Arbiter) (new : Row) (r : Row) : bool :=
  match a with
  | on_primary_key => has_id (id new) r
  | on_driver_id => has_driver (driver_id new) r
  end.

(** PRIMARY KEY (id) and UNIQUE (driver_id). *)
Definition keys_ok (tbl : list Row) : bool :=
  distinct (map id tbl) && distinct (map driver_id tbl).

(** INSERT ... ON CONFLICT (<arbiter>) DO UPDATE SET ... . A
    collision on a unique column that is not the arbiter is not
    absorbed: it raises [unique_violation] and the table is left as
    it was. *)
Definition upsert (uuid now : string) (v : Insert) (onConflict : option string)
    (tbl : list Row) : PgResult (list Row) :=
  match arbiter onConflict with
  | None => PgError undefined_column
  | Some a =>
      let new := new_row uuid now v in
      let tbl' :=
        if existsb (duplicate a new) tbl
        then map (fun r => if duplicate a new r then merge_row now v r else r) tbl
        else tbl ++ [new] in
      if keys_ok tbl' then PgOk tbl' else PgError unique_violation
  end.

Definition by_driver (d : string) (tbl : list Row) : list Row :=
  filter (has_driver d) tbl.

End driver_locations.

(** ** Tables [services] and [service_requests] *)

Module services.

Record Row : Type := mkRow {
  id : string;
  merchant_id : string;
  category_id : option string;
  title : string;
  description : option string;
  price : option Z;
  price_type : string;
  duration_minutes : Z;
  is_active : bool;
  requires_delivery : bool;
  service_area : option string;
  created_at : string;
  updated_at : string
}.

End services.

Module service_requests.

Record Row : Type := mkRow {
  id : string;
  client_id : string;
  merchant_id : string;
  service_id : string;
  status : string;
  description : option string;
  scheduled_date : option string;
  location : option string;
  price_quoted : option Z;
  created_at : string;
  updated_at : string
}.

Record Insert : Type := mkInsert {
  ins_id : option string;
  ins_client_id : string;
  ins_merchant_id : string;
  ins_service_id : string;
  ins_status : option string;
  ins_description : option (option string);
  ins_scheduled_date : option (option string);
  ins_location : option (option string);
  ins_price_quoted : option (option Z);
  ins_created_at : option string;
  ins_updated_at : option string
}.

Definition keys (v : Insert) : list string :=
  key_of "id" (ins_id v) ++ ["client_id"; "merchant_id"; "service_id"] ++
  key_of "status" (ins_status v) ++
  key_of "description" (ins_description v) ++
  key_of "scheduled_date" (ins_scheduled_date v) ++
  key_of "location" (ins_location v) ++
  key_of "price_quoted" (ins_price_quoted v) ++
  key_of "created_at" (ins_created_at v) ++
  key_of "updated_at" (ins_updated_at v).

Definition statuses : list string :=
  ["pending"; "accepted"; "in_progress"; "completed"; "cancelled"].

Definition new_row (uuid now : string) (v : Insert) : Row :=
  {| id := or_keep (ins_id v) uuid;
     client_id := ins_client_id v;
     merchant_id := ins_merchant_id v;
     service_id := ins_service_id v;
     status := or_keep (ins_status v) "pending";
     description := or_keep (ins_description v) None;
     scheduled_date := or_keep (ins_scheduled_date v) None;
     location := or_keep (ins_location v) None;
     price_quoted := or_keep (ins_price_quoted v) None;
     created_at := or_keep (ins_created_at v) now;
     updated_at := or_keep (ins_updated_at v) now |}.

(** INSERT INTO service_requests: the only uniqueness the table
    declares is its primary key. *)
Definition insert (uuid now : string) (v : Insert) (tbl : list Row)
  : PgResult (list Row) :=
  let new := new_row uuid now v in
  if negb (mem_string (status new) statuses) then PgError check_violation
  else if mem_string (id new) (map id tbl) then PgError unique_violation
  else PgOk (tbl ++ [new]).

End service_requests.

(** ** The backend, the requests and the handlers' monad *)

Record Db : Type := mkDb {
  tbl_deliveries : list deliveries.Row;
  tbl_driver_locations : list driver_locations.Row;
  tbl_service_requests : list service_requests.Row
}.

(** The calls the modelled screens make through the Supabase client. *)
Inductive Request : Type :=
| update_deliveries (values : deliveries.Update) (filters : list deliveries.Filter)
| select_deliveries_for (user_id : string)
| select_driver_status (driver_id : string)
| upsert_driver_locations (values : driver_locations.Insert) (onConflict : option string)
| insert_service_requests (values : service_requests.Insert).

Definition is_write (r : Request) : bool :=
  match r with
  | update_deliveries _ _ => true
  | upsert_driver_locations _ _ => true
  | insert_service_requests _ => true
  | _ => false
  end.

(** What the user, the console and the network see of a handler;
    [executing r] marks a call of the offline queue's [executeAction]
    on the action object [r]. *)
Inductive Event : Type :=
| sent (r : Request)
| alert (title message : string)
| console_error (message : string)
| console_warn (message : string)
| executing (action : nat).

Definition is_sent (e : Event) : bool :=
  match e with
  | sent _ => true
  | _ => false
  end.

Definition is_sent_write (e : Event) : bool :=
  match e with
  | sent r => is_write r
  | _ => false
  end.

Definition is_alert (e : Event) : bool :=
  match e with
  | alert _ _ => true
  | _ => false
  end.

(** The circumstances of one request: whether it reaches the server,
    the server's [now()] and the value [gen_random_uuid()] would take. *)
Record Server : Type := mkServer {
  reachable : bool;
  now : string;
  gen_random_uuid : string
}.

Record World : Type := mkWorld {
  db : Db;
  log : list Event;
  served : nat;
  oracle : nat -> Server
}.

Definition App (A : Type) : Type := World -> A * World.

Definition ret {A : Type} (a : A) : App A := fun w => (a, w).

Definition bind {A B : Type} (m : App A) (k : A -> App B) : App B :=
  fun w => let (a, w') := m w in k a w'.

Notation "x <- m ;; k" := (bind m (fun x => k))
  (at level 61, m at next level, right associativity).
Notation "m ;;; k" := (bind m (fun _ => k))
  (at level 61, right associativity).

Definition emit (e : Event) : App unit :=
  fun w => (tt, mkWorld (db w) (log w ++ [e]) (served w) (oracle w)).

(** The statement a write request runs on the database, as the user
    [uid] of the session. *)
Definition execute (srv : Server) (uid : option string) (r : Request) (d : Db)
  : PgResult Db :=
  match r with
  | update_deliveries u fs =>
      match deliveries.update uid (now srv) u fs (tbl_deliveries d) with
      | PgOk t => PgOk (mkDb t (tbl_driver_locations d) (tbl_service_requests d))
      | PgError c => PgError c
      end
  | upsert_driver_locations v oc =>
      match driver_locations.upsert (gen_random_uuid srv) (now srv) v oc
              (tbl_driver_locations d) with
      | PgOk t => PgOk (mkDb (tbl_deliveries d) t (tbl_service_requests d))
      | PgError c => PgError c
      end
  | insert_service_requests v =>
      match service_requests.insert (gen_random_uuid srv) (now srv) v
              (tbl_service_requests d) with
      | PgOk t => PgOk (mkDb (tbl_deliveries d) (tbl_driver_locations d) t)
      | PgError c => PgError c
      end
  | select_deliveries_for _ => PgOk d
  | select_driver_status _ => PgOk d
  end.

(** [const { error } = await supabase.from(..)...], sent with the
    session of [uid]: the request is logged and consumes one entry of
    the oracle; the result is the [error] property ([None] is
    JavaScript's null). *)
Definition rpc (uid : option string) (r : Request) : App (option string) :=
  fun w =>
    let srv := oracle w (served w) in
    let lg := log w ++ [sent r] in
    if reachable srv then
      match execute srv uid r (db w) with
      | PgOk d => (None, mkWorld d lg (S (served w)) (oracle w))
      | PgError c => (Some c, mkWorld (db w) lg (S (served w)) (oracle w))
      end
    else (Some "Failed to fetch", mkWorld (db w) lg (S (served w)) (oracle w)).

(** ORDER BY created_at DESC. *)
Fixpoint place (r : deliveries.Row) (l : list deliveries.Row) : list deliveries.Row :=
  match l with
  | [] => [r]
  | x :: t =>
      if String.leb (deliveries.created_at x) (deliveries.created_at r)
      then r :: x :: t
      else x :: place r t
  end.

Definition newest_first (l : list deliveries.Row) : list deliveries.Row :=
  fold_right place [] l.

(** [.or(`driver_id.eq.${user.id},driver_id.is.null`)]. *)
Definition mine_or_unassigned (user_id : string) (r : deliveries.Row) : bool :=
  deliveries.holds r (deliveries.eq "driver_id" user_id)
  || deliveries.holds r (deliveries.is_null "driver_id").

(** The policy "Users can view related deliveries":
    [FOR SELECT TO authenticated USING (driver_id = auth.uid() OR
    EXISTS (SELECT 1 FROM service_requests WHERE service_requests.id =
    service_request_id AND (service_requests.client_id = auth.uid() OR
    service_requests.merchant_id = auth.uid())))]. The subquery runs
    under the SELECT policy of [service_requests], whose condition is
    the same [client_id = auth.uid() OR merchant_id = auth.uid()]. *)
Definition party_to (uid : string) (q : service_requests.Row) : bool :=
  String.eqb (service_requests.client_id q) uid
  || String.eqb (service_requests.merchant_id q) uid.

Definition viewable (uid : string) (requests : list service_requests.Row)
    (r : deliveries.Row) : bool :=
  deliveries.assigned_to (Some uid) r
  || existsb (fun q => String.eqb (service_requests.id q) (deliveries.service_request_id r)
                       && party_to uid q) requests.

(** The two reads of the deliveries screen. The select is answered
    with the rows its policy lets the caller see. *)
Definition query_deliveries (user_id : string) : App (PgResult (list deliveries.Row)) :=
  fun w =>
    let srv := oracle w (served w) in
    let w' := mkWorld (db w) (log w ++ [sent (select_deliveries_for user_id)])
                (S (served w)) (oracle w) in
    if reachable srv
    then (PgOk (newest_first
                  (filter (mine_or_unassigned user_id)
                     (filter (viewable user_id (tbl_service_requests (db w)))
                        (tbl_deliveries (db w))))), w')
    else (PgError "Failed to fetch", w').

(** [.select('is_available').eq('driver_id', id).single()]: anything
    but exactly one row is the error PGRST116. *)
Definition query_driver_status (driver_id : string) : App (PgResult bool) :=
  fun w =>
    let srv := oracle w (served w) in
    let w' := mkWorld (db w) (log w ++ [sent (select_driver_status driver_id)])
                (S (served w)) (oracle w) in
    if reachable srv
    then match driver_locations.by_driver driver_id (tbl_driver_locations (db w)) with
         | [r] => (PgOk (driver_locations.is_available r), w')
         | _ => (PgError "PGRST116", w')
         end
    else (PgError "Failed to fetch", w').

(** The device: [new Date().toISOString()] and
    [Location.getCurrentPositionAsync], which resolves to coordinates,
    given as the request body will spell them, or rejects ([None]). *)
Record Device : Type := mkDevice {
  date_iso : string;
  position : option (Decimal * Decimal)
}.

(** ** The driver's deliveries screen *)

Module DeliveriesScreen.

(** The component's state: [user?.id] and [profile?.role] from the
    auth context, and the four [useState] cells. The joined
    [service_request] of a fetched delivery is only displayed and is
    left out of the items. *)
Record State : Type := mkState {
  user : option string;
  role : option string;
  deliveries : list deliveries.Row;
  isAvailable : bool;
  loading : bool;
  locationPermission : bool
}.

Definition setDeliveries (l : list deliveries.Row) (s : State) : State :=
  mkState (user s) (role s) l (isAvailable s) (loading s) (locationPermission s).
Definition setIsAvailable (b : bool) (s : State) : State :=
  mkState (user s) (role s) (deliveries s) b (loading s) (locationPermission s).
Definition setLoading (b : bool) (s : State) : State :=
  mkState (user s) (role s) (deliveries s) (isAvailable s) b (locationPermission s).

Definition fetchDriverStatus (s : State) : App State :=
  match user s with
  | None => ret s
  | Some uid =>
      r <- query_driver_status uid ;;
      match r with
      | PgOk b => ret (setIsAvailable b s)
      | PgError code =>
          if String.eqb code "PGRST116" then ret (setIsAvailable false s)
          else emit (console_error "Error fetching driver status:") ;;; ret s
      end
  end.

Definition fetchDeliveries (s : State) : App State :=
  match user s with
  | None => ret s
  | Some uid =>
      r <- query_deliveries uid ;;
      match r with
      | PgOk data => ret (setLoading false (setDeliveries data s))
      | PgError _ =>
          emit (console_error "Error fetching deliveries:") ;;;
          ret (setLoading false s)
      end
  end.

(** The object literal passed to [.upsert]: [location] is null unless
    the driver goes available, and [location?.latitude] of null is
    [undefined], which the request body does not carry. *)
Definition availability_values (uid : string) (available : bool)
    (location : option (Decimal * Decimal)) (date : string) : driver_locations.Insert :=
  {| driver_locations.ins_id := None;
     driver_locations.ins_driver_id := uid;
     driver_locations.ins_latitude := option_map (fun l => Some (fst l)) location;
     driver_locations.ins_longitude := option_map (fun l => Some (snd l)) location;
     driver_locations.ins_is_available := Some available;
     driver_locations.ins_updated_at := Some date |}.

Definition availability_failed (s : State) : App State :=
  emit (console_error "Error updating driver availability:") ;;;
  emit (alert "Error" "Failed to update availability status") ;;;
  ret s.

Definition updateDriverAvailability (dev : Device) (available : bool) (s : State)
  : App State :=
  match user s, locationPermission s with
  | Some uid, true =>
      match (if available then option_map Some (position dev) else Some None) with
      | None => availability_failed s
      | Some location =>
          error <- rpc (Some uid) (upsert_driver_locations
                          (availability_values uid available location (date_iso dev))
                          None) ;;
          match error with
          | Some _ => availability_failed s
          | None => ret (setIsAvailable available s)
          end
      end
  | _, _ =>
      emit (alert "Error" "Location permission is required to go online") ;;;
      ret s
  end.

(** [{ driver_id: user.id, status: 'assigned' }]. *)
Definition accept_values (uid : string) : deliveries.Update :=
  {| deliveries.set_id := None;
     deliveries.set_service_request_id := None;
     deliveries.set_driver_id := Some (Some uid);
     deliveries.set_pickup_location := None;
     deliveries.set_delivery_location := None;
     deliveries.set_status := Some "assigned";
     deliveries.set_estimated_delivery_time := None;
     deliveries.set_actual_delivery_time := None;
     deliveries.set_delivery_fee := None;
     deliveries.set_distance_km := None;
     deliveries.set_driver_notes := None;
     deliveries.set_created_at := None;
     deliveries.set_updated_at := None |}.

Definition acceptDelivery (deliveryId : string) (s : State) : App State :=
  match user s with
  | None => ret s
  | Some uid =>
      error <- rpc (Some uid) (update_deliveries (accept_values uid)
                      [deliveries.eq "id" deliveryId]) ;;
      match error with
      | Some _ =>
          emit (console_error "Error accepting delivery:") ;;;
          emit (alert "Error" "Failed to accept delivery") ;;;
          ret s
      | None =>
          s' <- fetchDeliveries s ;;
          emit (alert "Success" "Delivery accepted!") ;;;
          ret s'
      end
  end.

(** [const updateData: any = { status }], with
    [actual_delivery_time] added when the status is 'delivered'. *)
Definition updateData (status date : string) : deliveries.Update :=
  {| deliveries.set_id := None;
     deliveries.set_service_request_id := None;
     deliveries.set_driver_id := None;
     deliveries.set_pickup_location := None;
     deliveries.set_delivery_location := None;
     deliveries.set_status := Some status;
     deliveries.set_estimated_delivery_time := None;
     deliveries.set_actual_delivery_time :=
       if String.eqb status "delivered" then Some (Some date) else None;
     deliveries.set_delivery_fee := None;
     deliveries.set_distance_km := None;
     deliveries.set_driver_notes := None;
     deliveries.set_created_at := None;
     deliveries.set_updated_at := None |}.

Definition updateDeliveryStatus (dev : Device) (deliveryId status : string)
    (s : State) : App State :=
  error <- rpc (user s) (update_deliveries (updateData status (date_iso dev))
                  [deliveries.eq "id" deliveryId]) ;;
  match error with
  | Some _ =>
      emit (console_error "Error updating delivery status:") ;;;
      emit (alert "Error" "Failed to update delivery status") ;;;
      ret s
  | None => fetchDeliveries s
  end.

(** The buttons a delivery card can carry. *)
Inductive Button : Type :=
| Accept
| MarkPickedUp
| InTransit
| MarkDelivered.

(** JavaScript's [!item.driver_id]: null and the empty string are
    falsy. *)
Definition falsy (v : option string) : bool :=
  match v with
  | None => true
  | Some x => String.eqb x ""
  end.

(** [item.driver_id === user?.id]: null is not [undefined]. *)
Definition isMyDelivery (s : State) (item : deliveries.Row) : bool :=
  match deliveries.driver_id item, user s with
  | Some d, Some u => String.eqb d u
  | _, _ => false
  end.

Definition canAccept (s : State) (item : deliveries.Row) : bool :=
  falsy (deliveries.driver_id item)
  && String.eqb (deliveries.status item) "pending"
  && isAvailable s.

Definition shown (c : bool) (b : Button) : list Button := if c then [b] else [].

(** The touchable elements of the card rendered for [item]. *)
Definition renderDeliveryItem (s : State) (item : deliveries.Row) : list Button :=
  shown (canAccept s item) Accept ++
  shown (isMyDelivery s item && String.eqb (deliveries.status item) "assigned")
    MarkPickedUp ++
  shown (isMyDelivery s item && String.eqb (deliveries.status item) "picked_up")
    InTransit ++
  shown (isMyDelivery s item && String.eqb (deliveries.status item) "in_transit")
    MarkDelivered.

(** The [onPress] handler of each button. *)
Definition onPress (dev : Device) (item : deliveries.Row) (b : Button) (s : State)
  : App State :=
  match b with
  | Accept => acceptDelivery (deliveries.id item) s
  | MarkPickedUp => updateDeliveryStatus dev (deliveries.id item) "picked_up" s
  | InTransit => updateDeliveryStatus dev (deliveries.id item) "in_transit" s
  | MarkDelivered => updateDeliveryStatus dev (deliveries.id item) "delivered" s
  end.


(** The list is rendered for drivers only. *)
Definition render (s : State) : option (list (deliveries.Row * list Button)) :=
  match role s with
  | Some r =>
      if String.eqb r "driver"
      then Some (map (fun item => (item, renderDeliveryItem s item)) (deliveries s))
      else None
  | None => None
  end.

End DeliveriesScreen.

(** ** The service detail screen: booking *)

Module ServiceDetailScreen.

Record State : Type := mkState {
  user : option string;
  role : option string;
  service : option services.Row
}.

(** The object literal passed to [.insert]. *)
Definition booking_values (uid : string) (svc : services.Row) : service_requests.Insert :=
  {| service_requests.ins_id := None;
     service_requests.ins_client_id := uid;
     service_requests.ins_merchant_id := services.merchant_id svc;
     service_requests.ins_service_id := services.id svc;
     service_requests.ins_status := None;
     service_requests.ins_description :=
       Some (Some ("Request for: " ++ services.title svc)%string);
     service_requests.ins_scheduled_date := None;
     service_requests.ins_location := None;
     service_requests.ins_price_quoted := Some (services.price svc);
     service_requests.ins_created_at := None;
     service_requests.ins_updated_at := None |}.

Definition is_client (role : option string) : bool :=
  match role with
  | Some r => String.eqb r "client"
  | None => false
  end.

Definition handleBookService (s : State) : App unit :=
  match user s, service s with
  | Some uid, Some svc =>
      if negb (is_client (role s))
      then emit (alert "Access Denied" "Only clients can book services")
      else
        error <- rpc (Some uid) (insert_service_requests (booking_values uid svc)) ;;
        match error with
        | Some _ =>
            emit (console_error "Error booking service:") ;;;
            emit (alert "Error" "Failed to book service")
        | None => emit (alert "Success" "Service request sent successfully!")
        end
  | _, _ => ret tt
  end.

End ServiceDetailScreen.

(** ** The offline action queue ([useOfflineQueue]) *)

Module useOfflineQueue.

Record QueuedAction : Type := mkAction {
  id : string;
  type : string;
  data : string;
  timestamp : Z;
  retryCount : nat
}.

Definition MAX_RETRY_COUNT : nat := 3.

(** The hook's state. Actions are JavaScript objects: [objects] is
    the store they live in and a reference is an index into it, so
    the array held by the [queue] cell and the copy [[...queue]] made
    by [processQueue] share their elements. The AsyncStorage item is
    a JSON text, that is a copy by value. *)
Record Hook : Type := mkHook {
  objects : list QueuedAction;
  queue : list nat;
  isProcessing : bool;
  isConnected : bool;
  storage : option (list QueuedAction);
  trace : list Event
}.

Definition setIsProcessing (b : bool) (h : Hook) : Hook :=
  mkHook (objects h) (queue h) b (isConnected h) (storage h) (trace h).

Definition setIsConnected (b : bool) (h : Hook) : Hook :=
  mkHook (objects h) (queue h) (isProcessing h) b (storage h) (trace h).

(** [JSON.stringify] of an array of references. *)
Definition snapshot (objs : list QueuedAction) (q : list nat) : list QueuedAction :=
  flat_map (fun r => match nth_error objs r with
                     | Some a => [a]
                     | None => []
                     end) q.

(** [saveQueue]: the state cell is only replaced after
    [AsyncStorage.setItem] has resolved; when it rejects
    ([stored = false]) the error is logged and nothing else happens. *)
Definition saveQueue (stored : bool) (newQueue : list nat) (h : Hook) : Hook :=
  if stored
  then mkHook (objects h) newQueue (isProcessing h) (isConnected h)
         (Some (snapshot (objects h) newQueue)) (trace h)
  else mkHook (objects h) (queue h) (isProcessing h) (isConnected h) (storage h)
         (trace h ++ [console_error "Error saving offline queue:"]).

(** [loadQueue]: [JSON.parse] allocates fresh objects. *)
Definition loadQueue (h : Hook) : Hook :=
  match storage h with
  | Some l =>
      mkHook (objects h ++ l) (seq (length (objects h)) (length l))
        (isProcessing h) (isConnected h) (storage h) (trace h)
  | None => h
  end.

Definition always (b : bool) (r : nat) : bool := b.

Definition known_types : list string :=
  ["CREATE_SERVICE"; "UPDATE_PROFILE"; "SEND_MESSAGE"].

(** [executeAction]. The API call of each known action type is a
    placeholder in the source (a commented-out call); its outcome is
    the parameter [api]: [api r = false] says that the call made for
    the action object [r] rejects. The source as it stands is the
    instance [fun _ => true]. An unknown type only logs a warning. *)
Definition executeAction (api : nat -> bool) (r : nat) (action : QueuedAction)
  : bool * list Event :=
  if mem_string (type action) known_types
  then (api r, [executing r])
  else (true, [executing r; console_warn "Unknown action type:"]).

(** [updatedQueue.splice(i, 1)]. *)
Definition splice (i : nat) (l : list nat) : list nat :=
  firstn i l ++ skipn (S i) l.

(** [action.retryCount++], on the object itself. *)
Definition bump (a : QueuedAction) : QueuedAction :=
  mkAction (id a) (type a) (data a) (timestamp a) (S (retryCount a)).

Fixpoint store (r : nat) (a : QueuedAction) (objs : list QueuedAction)
  : list QueuedAction :=
  match objs, r with
  | [], _ => []
  | _ :: t, O => a :: t
  | x :: t, S r' => x :: store r' a t
  end.

(** One iteration of the [for] loop of [processQueue], at index [i]. *)
Definition body (api : nat -> bool) (i : nat)
    (st : list QueuedAction * list nat * list Event)
  : list QueuedAction * list nat * list Event :=
  let '(objs, updatedQueue, tr) := st in
  match nth_error updatedQueue i with
  | None => st
  | Some r =>
      match nth_error objs r with
      | None => st
      | Some action =>
          let (ok, evs) := executeAction api r action in
          if ok then (objs, splice i updatedQueue, tr ++ evs)
          else
            let tr' := tr ++ evs ++ [console_error "Error processing queued action:"] in
            let objs' := store r (bump action) objs in
            if (MAX_RETRY_COUNT <=? retryCount (bump action))%nat
            then (objs', splice i updatedQueue, tr')
            else (objs', updatedQueue, tr')
      end
  end.

(** [for (let i = k - 1; i >= 0; i--)]. *)
Fixpoint loop (api : nat -> bool) (k : nat)
    (st : list QueuedAction * list nat * list Event)
  : list QueuedAction * list nat * list Event :=
  match k with
  | O => st
  | S i => loop api i (body api i st)
  end.

(** [processQueue] is a closure: [queue0] and [isProcessing0] are the
    values of the state cells in the render that created it, which
    need not be the current ones. *)
Definition processQueue (api : nat -> bool) (stored : bool)
    (queue0 : list nat) (isProcessing0 : bool) (h : Hook) : Hook :=
  if isProcessing0 || (length queue0 =? 0)%nat then h
  else
    let h1 := setIsProcessing true h in
    let '(objs, updatedQueue, tr) :=
      loop api (length queue0) (objects h1, queue0, trace h1) in
    let h2 := mkHook objs (queue h1) (isProcessing h1) (isConnected h1) (storage h1) tr in
    setIsProcessing false (saveQueue stored updatedQueue h2).

(** The effect on [[isConnected, queue.length]]. *)
Definition effect (api : nat -> bool) (stored : bool) (h : Hook) : Hook :=
  if isConnected h && (0 <? length (queue h))%nat && negb (isProcessing h)
  then processQueue api stored (queue h) (isProcessing h) h
  else h.

Definition clearQueue (stored : bool) (h : Hook) : Hook := saveQueue stored [] h.

Definition is_executing (r : nat) (e : Event) : bool :=
  match e with
  | executing r' => (r' =? r)%nat
  | _ => false
  end.

(** How many times [executeAction] was called on the object [r]. *)
Definition executions (r : nat) (tr : list Event) : nat :=
  length (filter (is_executing r) tr).

(** The call for [r] rejects. *)
Definition fails (api : nat -> bool) (objs : list QueuedAction) (r : nat) : bool :=
  match nth_error objs r with
  | Some a => negb (fst (executeAction api r a))
  | None => false
  end.

(** *** One run of the loop, described element by element *)

(** The events of the iteration that handles [r]. *)
Definition events_of (api : nat -> bool) (objs : list QueuedAction) (r : nat)
  : list Event :=
  match nth_error objs r with
  | Some a =>
      snd (executeAction api r a) ++
      (if fst (executeAction api r a) then []
       else [console_error "Error processing queued action:"])
  | None => []
  end.

(** The store after the iteration that handles [r]. *)
Definition settle (api : nat -> bool) (r : nat) (objs : list QueuedAction)
  : list QueuedAction :=
  match nth_error objs r with
  | Some a => if fst (executeAction api r a) then objs else store r (bump a) objs
  | None => objs
  end.

(** Is [r] still in the array after the iteration that handles it? *)
Definition kept (api : nat -> bool) (objs : list QueuedAction) (r : nat) : bool :=
  match nth_error objs r with
  | Some a =>
      negb (fst (executeAction api r a)) && (S (retryCount a) <? MAX_RETRY_COUNT)%nat
  | None => true
  end.

(** *** The hook as a transition system

    [processQueue] above is one run taken as a whole. In the hook a
    run is an async function: it gives way at every [await], and what
    React, the network or the application do in between sees the state
    as it is then. The steps below are the stretches of code between
    two awaits. *)

(** What the functions of one render see: the values the state cells
    had in that render. *)
Record Render : Type := mkRender {
  seen_queue : list nat;
  seen_isProcessing : bool;
  seen_isConnected : bool
}.

Definition render_of (h : Hook) : Render :=
  mkRender (queue h) (isProcessing h) (isConnected h).

(** What the caller of [saveQueue] does after [await saveQueue(..)]:
    [addToQueue] of the render [c] goes on to
    [if (isConnected) processQueue()], [processQueue] to
    [setIsProcessing(false)], [clearQueue] returns. *)
Inductive Continuation : Type :=
| then_processQueue (c : Render)
| then_setIsProcessing_false
| then_return.

(** A call suspended at an [await]: [loadQueue] at
    [AsyncStorage.getItem], which was asked for the item when the hook
    mounted; [saveQueue] at [AsyncStorage.setItem], with the text
    [JSON.stringify] made before the call; the caller of [saveQueue]
    once it has returned; [processQueue] at
    [executeAction(updatedQueue[i])]. *)
Inductive Task : Type :=
| at_getItem (text : option (list QueuedAction))
| at_setItem (newQueue : list nat) (text : list QueuedAction) (next : Continuation)
| after_saveQueue (next : Continuation)
| at_executeAction (updatedQueue : list nat) (i : nat).

(** A mounted hook: its cells, store and trace, the calls in flight,
    the renders so far (the latest first) and the dependencies
    [[isConnected, queue.length]] of the latest render. *)
Record Mounted : Type := mkMounted {
  hook : Hook;
  tasks : list Task;
  renders : list Render;
  deps : bool * nat
}.

Definition say (evs : list Event) (h : Hook) : Hook :=
  mkHook (objects h) (queue h) (isProcessing h) (isConnected h) (storage h)
    (trace h ++ evs).

(** The first render and its effects: [loadQueue()] is called, and the
    second effect finds an empty queue. *)
Definition mount (stored : option (list QueuedAction)) (connected : bool) : Mounted :=
  let h := mkHook [] [] false connected stored [] in
  mkMounted h [at_getItem stored] [render_of h] (connected, 0).

(** [executeAction(updatedQueue[i])] up to the promise it returns:
    what the call logs. *)
Definition call (objs : list QueuedAction) (updatedQueue : list nat) (i : nat)
  : list Event :=
  match nth_error updatedQueue i with
  | Some r =>
      match nth_error objs r with
      | Some action => snd (executeAction (always true) r action)
      | None => []
      end
  | None => []
  end.

(** [processQueue] of the render [c], up to its first [await]. *)
Definition start (c : Render) (m : Mounted) : Mounted :=
  if seen_isProcessing c || (length (seen_queue c) =? 0)%nat then m
  else
    let h := setIsProcessing true (hook m) in
    let i := length (seen_queue c) - 1 in
    mkMounted (say (call (objects h) (seen_queue c) i) h)
      (tasks m ++ [at_executeAction (seen_queue c) i]) (renders m) (deps m).

(** What follows [await executeAction(action)] in iteration [i], once
    the promise has resolved ([ok]) or rejected: the [splice], or the
    [catch] block, which changes the action object as it is then. *)
Definition settled (ok : bool) (updatedQueue : list nat) (i : nat) (h : Hook)
  : Hook * list nat :=
  match nth_error updatedQueue i with
  | Some r =>
      match nth_error (objects h) r with
      | Some action =>
          if fst (executeAction (always ok) r action) then (h, splice i updatedQueue)
          else
            let h' :=
              mkHook (store r (bump action) (objects h)) (queue h) (isProcessing h)
                (isConnected h) (storage h)
                (trace h ++ [console_error "Error processing queued action:"]) in
            if (MAX_RETRY_COUNT <=? retryCount (bump action))%nat
            then (h', splice i updatedQueue)
            else (h', updatedQueue)
      | None => (h, updatedQueue)
      end
  | None => (h, updatedQueue)
  end.

(** The rest of the iteration and the code up to the next [await]:
    the call of the next iteration, or [saveQueue(updatedQueue)] up to
    [AsyncStorage.setItem]. *)
Definition resume (ok : bool) (updatedQueue : list nat) (i : nat) (h : Hook)
  : Hook * Task :=
  let (h1, q1) := settled ok updatedQueue i h in
  match i with
  | O => (h1, at_setItem q1 (snapshot (objects h1) q1) then_setIsProcessing_false)
  | S j => (say (call (objects h1) q1 j) h1, at_executeAction q1 j)
  end.

(** [saveQueue] after [await AsyncStorage.setItem(..)]. *)
Definition written (stored : bool) (newQueue : list nat) (text : list QueuedAction)
    (h : Hook) : Hook :=
  if stored
  then mkHook (objects h) newQueue (isProcessing h) (isConnected h) (Some text) (trace h)
  else say [console_error "Error saving offline queue:"] h.

(** [loadQueue] after [await AsyncStorage.getItem(..)]. *)
Definition loaded (ok : bool) (text : option (list QueuedAction)) (h : Hook) : Hook :=
  if ok then
    match text with
    | Some l =>
        mkHook (objects h ++ l) (seq (length (objects h)) (length l))
          (isProcessing h) (isConnected h) (storage h) (trace h)
    | None => h
    end
  else say [console_error "Error loading offline queue:"] h.

(** [addToQueue(type, data)] of the render [c], up to its [await]:
    the two readings of [Date.now()] give the id and the timestamp. *)
Definition called_addToQueue (c : Render) (type data : string)
    (now_id now_timestamp : Z) (m : Mounted) : Mounted :=
  let action :=
    mkAction (NilZero.string_of_int (Z.to_int now_id)) type data now_timestamp 0 in
  let h := hook m in
  let objs := objects h ++ [action] in
  let newQueue := seen_queue c ++ [length (objects h)] in
  mkMounted
    (mkHook objs (queue h) (isProcessing h) (isConnected h) (storage h) (trace h))
    (tasks m ++ [at_setItem newQueue (snapshot objs newQueue) (then_processQueue c)])
    (renders m) (deps m).

(** React renders the component with the current cells and runs the
    effect when [[isConnected, queue.length]] differ from the previous
    render's. *)
Definition committed (m : Mounted) : Mounted :=
  let c := render_of (hook m) in
  let d := (isConnected (hook m), length (queue (hook m))) in
  let m1 := mkMounted (hook m) (tasks m) (c :: renders m) d in
  if negb (Bool.eqb (fst d) (fst (deps m)) && (snd d =? snd (deps m))%nat)
     && seen_isConnected c && (0 <? length (seen_queue c))%nat
     && negb (seen_isProcessing c)
  then start c m1
  else m1.

(** What can happen to a mounted hook. The application calls
    [addToQueue] or [clearQueue] of a render it has seen ([render]
    counts back from the latest); the network status changes; React
    renders; an awaited promise settles. *)
Inductive Label : Type :=
| commit
| network (connected : bool)
| call_addToQueue (render : nat) (type data : string) (now_id now_timestamp : Z)
| call_clearQueue
| getItem_settles (k : nat) (ok : bool)
| setItem_settles (k : nat) (ok : bool)
| saveQueue_returns (k : nat)
| executeAction_settles (k : nat) (ok : bool).

Definition without (k : nat) (l : list Task) : list Task := firstn k l ++ skipn (S k) l.

Definition put (k : nat) (t : Task) (l : list Task) : list Task :=
  firstn k l ++ t :: skipn (S k) l.

Definition with_hook (h : Hook) (m : Mounted) : Mounted :=
  mkMounted h (tasks m) (renders m) (deps m).

Definition with_tasks (l : list Task) (m : Mounted) : Mounted :=
  mkMounted (hook m) l (renders m) (deps m).

(** One step; [None] when the step cannot be taken in [m]. *)
Definition react (m : Mounted) (l : Label) : option Mounted :=
  match l with
  | commit => Some (committed m)
  | network connected => Some (with_hook (setIsConnected connected (hook m)) m)
  | call_addToQueue render type data now_id now_timestamp =>
      match nth_error (renders m) render with
      | Some c => Some (called_addToQueue c type data now_id now_timestamp m)
      | None => None
      end
  | call_clearQueue =>
      Some (with_tasks (tasks m ++ [at_setItem [] [] then_return]) m)
  | getItem_settles k ok =>
      match nth_error (tasks m) k with
      | Some (at_getItem text) =>
          Some (mkMounted (loaded ok text (hook m)) (without k (tasks m))
                  (renders m) (deps m))
      | _ => None
      end
  | setItem_settles k ok =>
      match nth_error (tasks m) k with
      | Some (at_setItem newQueue text next) =>
          Some (mkMounted (written ok newQueue text (hook m))
                  (put k (after_saveQueue next) (tasks m)) (renders m) (deps m))
      | _ => None
      end
  | saveQueue_returns k =>
      match nth_error (tasks m) k with
      | Some (after_saveQueue next) =>
          let m1 := with_tasks (without k (tasks m)) m in
          match next with
          | then_processQueue c => Some (if seen_isConnected c then start c m1 else m1)
          | then_setIsProcessing_false =>
              Some (with_hook (setIsProcessing false (hook m1)) m1)
          | then_return => Some m1
          end
      | _ => None
      end
  | executeAction_settles k ok =>
      match nth_error (tasks m) k with
      | Some (at_executeAction updatedQueue i) =>
          let (h, t) := resume ok updatedQueue i (hook m) in
          Some (mkMounted h (put k t (tasks m)) (renders m) (deps m))
      | _ => None
      end
  end.

Fixpoint play (ls : list Label) (m : Mounted) : option Mounted :=
  match ls with
  | [] => Some m
  | l :: t =>
      match react m l with
      | Some m' => play t m'
      | None => None
      end
  end.

(** *** Calls that do not overlap *)

Fixpoint same_refs (l1 l2 : list nat) : bool :=
  match l1, l2 with
  | [], [] => true
  | x :: t1, y :: t2 => (x =? y)%nat && same_refs t1 t2
  | _, _ => false
  end.

Definition same_render (c c' : Render) : bool :=
  same_refs (seen_queue c) (seen_queue c')
  && Bool.eqb (seen_isProcessing c) (seen_isProcessing c')
  && Bool.eqb (seen_isConnected c) (seen_isConnected c').

(** A step of a hook that is used one call at a time: the
    application calls [addToQueue] or [clearQueue] only when no call
    of the hook is in flight, and [addToQueue] from a render that
    shows the cells as they are; and no write to AsyncStorage is
    rejected. *)
Definition allowed (m : Mounted) (l : Label) : bool :=
  match l with
  | call_addToQueue render _ _ _ _ =>
      match tasks m, nth_error (renders m) render with
      | [], Some c => same_render c (render_of (hook m))
      | _, _ => false
      end
  | call_clearQueue =>
      match tasks m with
      | [] => true
      | _ => false
      end
  | setItem_settles _ ok => ok
  | _ => true
  end.




(** The calls of [executeAction] settle as the source has them: the
    API calls are commented out, so every promise resolves. *)
Definition as_written (l : Label) : bool :=
  match l with
  | executeAction_settles _ ok => ok
  | _ => true
  end.

(** No write to AsyncStorage is rejected. *)
Definition written_through (l : Label) : bool :=
  match l with
  | setItem_settles _ ok => ok
  | _ => true
  end.





(** How often the action object [r] has been executed once the
    schedule [ls] has been played on a freshly mounted, connected
    hook. *)
Definition executed_after (ls : list Label) (r : nat) : option nat :=
  option_map (fun m => executions r (trace (hook m))) (play ls (mount None true)).

(** *** The hook with the calls as the source has them *)




(** *** The invariant of a hook used one call at a time *)

(** An action that is waiting: it has failed each time it was
    executed, fewer than MAX_RETRY_COUNT times. *)
Definition rested (h : Hook) (r : nat) : Prop :=
  exists a, nth_error (objects h) r = Some a
            /\ executions r (trace h) <= retryCount a
            /\ retryCount a < MAX_RETRY_COUNT.

(** An action whose call is in flight. *)
Definition in_call (h : Hook) (r : nat) : Prop :=
  exists a, nth_error (objects h) r = Some a
            /\ executions r (trace h) <= S (retryCount a)
            /\ retryCount a < MAX_RETRY_COUNT.

Definition Bounded (h : Hook) : Prop :=
  (forall r, executions r (trace h) <= MAX_RETRY_COUNT)
  /\ (forall r, length (objects h) <= r -> executions r (trace h) = 0)
  /\ filter is_alert (trace h) = [].






(** *** Sample schedules *)

(** A message is queued offline; the network comes back and the run
    of the effect executes it; the network goes and comes back. *)
Definition queued_offline : list Label :=
  [getItem_settles 0 true; network false; commit;
   call_addToQueue 0 "SEND_MESSAGE" "first" 1721851234567%Z 1721851234567%Z;
   setItem_settles 0 true; commit; saveQueue_returns 0].

Definition reconnect : list Label := [network false; commit; network true; commit].

(** One run over a queue of one action: the call settles, the queue is
    written, [isProcessing] is reset. *)
Definition one_run (call_ok write_ok : bool) : list Label :=
  [executeAction_settles 0 call_ok; setItem_settles 0 write_ok; commit;
   saveQueue_returns 0; commit].


(** Every write succeeds and every call rejects. The first message
    fails twice; the application then queues a second one while
    online: React renders after [setQueue], the effect starts a run
    over both messages, and [addToQueue] goes on to start the run of
    its own render, which still saw the first message waiting. The
    two runs both call the first message before either counts its
    failure. *)
Definition overlapping_runs : list Label :=
  queued_offline ++ [network true; commit] ++ one_run false true
  ++ reconnect ++ one_run false true
  ++ [call_addToQueue 0 "SEND_MESSAGE" "second" 1721851299999%Z 1721851299999%Z;
      setItem_settles 0 true; commit; saveQueue_returns 0;
      executeAction_settles 0 false].

(** Every write succeeds, every call rejects and runs never overlap.
    The first message is in its third run, which has counted the
    third failure and is writing the queue without it, when the
    application queues a second message from the latest render, which
    still shows the first: the write of [addToQueue] lands after the
    run's and puts the first message back. *)
Definition add_during_a_run : list Label :=
  queued_offline ++ [network true; commit] ++ one_run false true
  ++ reconnect ++ one_run false true
  ++ reconnect
  ++ [commit; executeAction_settles 0 false;
      call_addToQueue 0 "SEND_MESSAGE" "second" 1721851299999%Z 1721851299999%Z;
      setItem_settles 0 true; saveQueue_returns 0;
      setItem_settles 0 true; saveQueue_returns 0; commit;
      executeAction_settles 0 false; executeAction_settles 0 false].







(** Three failing attempts, one call at a time. *)
Definition three_failures : list Label :=
  queued_offline ++ [network true; commit] ++ one_run false true
  ++ reconnect ++ one_run false true
  ++ reconnect ++ one_run false true.

(** A connected hook with three actions waiting and no run going on. *)
Definition three_waiting : Hook :=
  mkHook [mkAction "1" "CREATE_SERVICE" "a" 1%Z 0;
          mkAction "2" "UPDATE_PROFILE" "b" 2%Z 0;
          mkAction "3" "SEND_MESSAGE" "c" 3%Z 0]
    [0; 1; 2] false true
    (Some [mkAction "1" "CREATE_SERVICE" "a" 1%Z 0;
           mkAction "2" "UPDATE_PROFILE" "b" 2%Z 0;
           mkAction "3" "SEND_MESSAGE" "c" 3%Z 0]) [].

(** The same with one action, of a type [executeAction] has no case
    for. *)
Definition unknown_waiting : Hook :=
  mkHook [mkAction "1" "DELETE_ACCOUNT" "me" 1%Z 0] [0] false true
    (Some [mkAction "1" "DELETE_ACCOUNT" "me" 1%Z 0]) [].

End useOfflineQueue.

(** ** Vocabulary of the statements *)

(** The events a handler added to the log. *)
Definition new_events (w w' : World) : list Event :=
  skipn (length (log w)) (log w').


(** The operations a user starts from the two screens, what each does
    to the world, and the write it sends once its guards have passed. *)
Inductive Operation : Type :=
| accept_delivery (deliveryId : string) (s : DeliveriesScreen.State)
| advance_status (dev : Device) (deliveryId status : string) (s : DeliveriesScreen.State)
| set_availability (dev : Device) (available : bool) (s : DeliveriesScreen.State)
| book_service (s : ServiceDetailScreen.State).

Definition perform (o : Operation) (w : World) : World :=
  match o with
  | accept_delivery k s => snd (DeliveriesScreen.acceptDelivery k s w)
  | advance_status dev k st s => snd (DeliveriesScreen.updateDeliveryStatus dev k st s w)
  | set_availability dev available s =>
      snd (DeliveriesScreen.updateDriverAvailability dev available s w)
  | book_service s => snd (ServiceDetailScreen.handleBookService s w)
  end.


Definition write_of (o : Operation) : option Request :=
  match o with
  | accept_delivery k s =>
      match DeliveriesScreen.user s with
      | Some uid =>
          Some (update_deliveries (DeliveriesScreen.accept_values uid)
                  [deliveries.eq "id" k])
      | None => None
      end
  | advance_status dev k st s =>
      Some (update_deliveries (DeliveriesScreen.updateData st (date_iso dev))
              [deliveries.eq "id" k])
  | set_availability dev available s =>
      match DeliveriesScreen.user s, DeliveriesScreen.locationPermission s with
      | Some uid, true =>
          match (if available then option_map Some (position dev) else Some None) with
          | Some location =>
              Some (upsert_driver_locations
                      (DeliveriesScreen.availability_values uid available location
                         (date_iso dev)) None)
          | None => None
          end
      | _, _ => None
      end
  | book_service s =>
      match ServiceDetailScreen.user s, ServiceDetailScreen.service s with
      | Some uid, Some svc =>
          if ServiceDetailScreen.is_client (ServiceDetailScreen.role s)
          then Some (insert_service_requests (ServiceDetailScreen.booking_values uid svc))
          else None
      | _, _ => None
      end
  end.

(** ** Sample data *)

(** An empty database behind a network that is down. *)
Definition unreachable_world : World :=
  mkWorld (mkDb [] [] []) [] 0 (fun _ => mkServer false "" "").

Definition sample_delivery : deliveries.Row :=
  deliveries.mkRow "d-1" "sr-1" None "12 Pine Ave" "80 Oak St" "pending"
    None None (Some 500%Z) (Some 320%Z) None
    "2025-07-24T20:00:00Z" "2025-07-24T20:00:00Z".

(** A delivery already claimed by another driver. *)
Definition claimed_delivery : deliveries.Row :=
  deliveries.mkRow "d-2" "sr-2" (Some "driver-1") "3 Elm Rd" "9 Ash Ct" "assigned"
    None None None None None
    "2025-07-24T21:00:00Z" "2025-07-24T21:05:00Z".

(** A delivery that driver-1 is carrying. *)
Definition carried_delivery : deliveries.Row :=
  deliveries.mkRow "d-3" "sr-3" (Some "driver-1") "5 Birch Ln" "41 Cedar Dr" "in_transit"
    None None None None None
    "2025-07-24T18:00:00Z" "2025-07-24T22:10:00Z".

(** A server that answers every request; its n-th generated uuid is
    ["uuid-n"]. *)
Definition online (n : nat) : Server :=
  mkServer true "2025-07-25T09:00:00Z"
    ("uuid-" ++ NilZero.string_of_uint (Nat.to_uint n))%string.

Definition sample_db : Db := mkDb [sample_delivery; claimed_delivery] [] [].

Definition sample_world : World := mkWorld sample_db [] 0 online.

Definition busy_world : World :=
  mkWorld (mkDb [sample_delivery; claimed_delivery; carried_delivery] [] []) [] 0 online.

Definition phone : Device :=
  mkDevice "2025-07-25T09:00:00.000Z"
    (Some (mkDecimal 45508888123%Z 9, mkDecimal (-73561668)%Z 6)).

Definition driver_1 : DeliveriesScreen.State :=
  DeliveriesScreen.mkState (Some "driver-1") (Some "driver")
    [sample_delivery; claimed_delivery] true false true.



Definition driver_2 : DeliveriesScreen.State :=
  DeliveriesScreen.mkState (Some "driver-2") (Some "driver")
    [sample_delivery] true false true.

(** The row a driver gets by going online once. *)
Definition driver_1_location : driver_locations.Row :=
  driver_locations.mkRow "loc-1" "driver-1" (Some 4550888812%Z) (Some (-7356166800)%Z)
    true "2025-07-25T08:00:00.000Z".

Definition tracked_world : World :=
  mkWorld (mkDb [sample_delivery; claimed_delivery] [driver_1_location] []) [] 0 online.

(** A service that requires delivery, and a client looking at it. *)
Definition courier_service : services.Row :=
  services.mkRow "svc-1" "merchant-1" None "Grocery run" None (Some 2500%Z) "fixed"
    60%Z true true None "2025-07-24T19:00:00Z" "2025-07-24T19:00:00Z".

Definition client_1 : ServiceDetailScreen.State :=
  ServiceDetailScreen.mkState (Some "client-1") (Some "client") (Some courier_service).

Definition empty_world : World := mkWorld (mkDb [] [] []) [] 0 online.

(** ** More of the screens *)


(** The order asked of the server: a later [created_at] first. *)
Definition not_older (a b : deliveries.Row) : Prop :=
  String.leb (deliveries.created_at b) (deliveries.created_at a) = true.

(** Table [conversations]: a primary key and no other uniqueness. *)
Module conversations.

Record Row : Type := mkRow {
  id : string;
  client_id : string;
  merchant_id : string;
  service_request_id : option string;
  last_message_at : string;
  created_at : string
}.

Definition between (client merchant : string) (r : Row) : bool :=
  String.eqb (client_id r) client && String.eqb (merchant_id r) merchant.

(** [.select('id').eq('client_id', c).eq('merchant_id', m).single()]:
    the id of the one matching row, or the error PGRST116. *)
Definition single (client merchant : string) (tbl : list Row) : PgResult string :=
  match filter (between client merchant) tbl with
  | [r] => PgOk (id r)
  | _ => PgError "PGRST116"
  end.

(** [.insert({ client_id, merchant_id }).select('id').single()]. *)
Definition insert (uuid now client merchant : string) (tbl : list Row)
  : PgResult (list Row * string) :=
  if mem_string uuid (map id tbl) then PgError unique_violation
  else PgOk (tbl ++ [mkRow uuid client merchant None now now], uuid).

End conversations.

(** The Message button of the service detail screen. *)
Module ContactMerchant.

(** What the handler does besides its requests. *)
Inductive Outcome : Type :=
| pushed (path : string)
| alerted (title message : string)
| logged (message : string).

Definition thread (conversationId : string) : string :=
  ("/(app)/messages/" ++ conversationId)%string.

Definition failed : list Outcome :=
  [logged "Error creating conversation:"; alerted "Error" "Failed to start conversation"].

(** [handleContactMerchant]. The lookup keeps the [data] of its
    result only: an error of any kind, a request that fails included,
    reads as "no conversation yet". [lookup] and [create] are the
    circumstances of the two requests; the second is only sent when
    the first found nothing. *)
Definition handleContactMerchant (lookup create : Server)
    (s : ServiceDetailScreen.State) (tbl : list conversations.Row)
  : list conversations.Row * list Outcome :=
  match ServiceDetailScreen.user s, ServiceDetailScreen.service s with
  | Some uid, Some svc =>
      let existingConversation :=
        if reachable lookup then
          match conversations.single uid (services.merchant_id svc) tbl with
          | PgOk k => Some k
          | PgError _ => None
          end
        else None in
      match existingConversation with
      | Some k => (tbl, [pushed (thread k)])
      | None =>
          if reachable create then
            match conversations.insert (gen_random_uuid create) (now create) uid
                    (services.merchant_id svc) tbl with
            | PgOk (tbl', k) => (tbl', [pushed (thread k)])
            | PgError _ => (tbl, failed)
            end
          else (tbl, failed)
      end
  | _, _ => (tbl, [])
  end.

End ContactMerchant.

(** The image strip of the create-service screen. *)
Module CreateServiceScreen.

(** [l.filter((_, i) => keep(i))], counting from [i]. *)
Fixpoint filter_index {A : Type} (keep : nat -> bool) (i : nat) (l : list A) : list A :=
  match l with
  | [] => []
  | x :: t =>
      if keep i then x :: filter_index keep (S i) t else filter_index keep (S i) t
  end.

(** [images.filter((_, i) => i !== index)]. *)
Definition removeImage (index : nat) (images : list string) : list string :=
  filter_index (fun i => negb (i =? index)%nat) 0 images.

End CreateServiceScreen.

(** ** More of the offline queue *)

(** The action objects [executeAction] was called on, in order. *)
Definition executed (tr : list Event) : list nat :=
  flat_map (fun e => match e with
                     | executing r => [r]
                     | _ => []
                     end) tr.

(** A signed-out driver screen, and a screen without location
    permission. *)
Definition signed_out : DeliveriesScreen.State :=
  DeliveriesScreen.mkState None None [] false true false.

(** The deliveries screen of driver-2 just opened: nothing fetched yet,
    the flag at its initial value. *)
Definition fresh_driver_2 : DeliveriesScreen.State :=
  DeliveriesScreen.mkState (Some "driver-2") (Some "driver") [] false true true.

Definition client_conversation : conversations.Row :=
  conversations.mkRow "conv-1" "client-1" "merchant-1" None
    "2025-07-24T19:30:00Z" "2025-07-24T19:30:00Z".

(** * Properties *)

(** ** Strings and keys *)

Lemma mem_string_In (s : string) (l : list string) :
  mem_string s l = true <-> In s l.
Proof.
  unfold mem_string. rewrite existsb_exists. split.
  - intros [x [Hx He]]. apply String.eqb_eq in He. now subst.
  - intros H. exists s. split; [assumption | apply String.eqb_refl].
Qed.

Lemma distinct_NoDup (l : list string) : distinct l = true <-> NoDup l.
Proof.
  induction l as [|x r IH]; simpl.
  - split; [constructor | reflexivity].
  - rewrite andb_true_iff, negb_true_iff, IH. split.
    + intros [Hm Hn]. constructor; [|assumption].
      intros Hin. apply mem_string_In in Hin. congruence.
    + intros Hn. inversion Hn as [|? ? Hx Hr]; subst. split; [|assumption].
      destruct (mem_string x r) eqn:E; [|reflexivity].
      apply mem_string_In in E. contradiction.
Qed.

(** ** The [deliveries] table under an update filtered on the primary key *)

Section UpdateById.

Import deliveries.

Variables (uid : option string) (now k : string) (u : Update).

Lemma selected_id (r : Row) : selected [eq "id" k] r = String.eqb (id r) k.
Proof. unfold selected. simpl. apply andb_true_r. Qed.

Lemma target_id (r : Row) :
  target uid [eq "id" k] r = String.eqb (id r) k && assigned_to uid r.
Proof. unfold target. now rewrite selected_id. Qed.

Lemma assigned_to_spec (r : Row) :
  assigned_to uid r = true <-> exists d, driver_id r = Some d /\ uid = Some d.
Proof.
  unfold assigned_to. destruct (driver_id r) as [d|], uid as [x|]; split;
    try discriminate; try (intros [y [H1 H2]]; discriminate).
  - intros H. apply String.eqb_eq in H. subst. now exists x.
  - intros [y [H1 H2]]. injection H1 as <-. injection H2 as <-. apply String.eqb_refl.
Qed.

Lemma find_id (k' : string) (tbl : list Row) (r : Row) :
  find k' tbl = Some r -> id r = k'.
Proof.
  unfold find. intros H. apply find_some in H. now apply String.eqb_eq.
Qed.

Lemma find_In (k' : string) (tbl : list Row) (r : Row) :
  find k' tbl = Some r -> In r tbl.
Proof. unfold find. intros H. now apply find_some in H. Qed.

(** Under the primary key, the row found for a key is the only row
    with that key. *)
Lemma find_unique (k' : string) (tbl : list Row) (r r' : Row) :
  distinct (map id tbl) = true ->
  find k' tbl = Some r -> In r' tbl -> id r' = k' -> r' = r.
Proof.
  unfold find. induction tbl as [|x t IH]; simpl; intros Hd Hf Hin Hid; [contradiction|].
  apply andb_true_iff in Hd. destruct Hd as [Hx Hd]. apply negb_true_iff in Hx.
  destruct (String.eqb_spec (id x) k') as [Hk|Hk].
  - injection Hf as <-. destruct Hin as [->|Hin]; [reflexivity|].
    exfalso. assert (Hm : mem_string (id x) (map id t) = true).
    { apply mem_string_In. apply in_map_iff. exists r'. split; [congruence | exact Hin]. }
    congruence.
  - destruct Hin as [->|Hin]; [contradiction|]. now apply IH.
Qed.

Hypothesis keeps_id : set_id u = None.

Lemma by_id_id (r : Row) : id (by_id uid now k u r) = id r.
Proof.
  unfold by_id. destruct (String.eqb (id r) k && assigned_to uid r); [|reflexivity].
  simpl. now rewrite keeps_id.
Qed.

Lemma find_by_id (k' : string) (tbl : list Row) :
  find k' (map (by_id uid now k u) tbl) = option_map (by_id uid now k u) (find k' tbl).
Proof.
  unfold find. induction tbl as [|r t IH]; simpl; [reflexivity|].
  rewrite by_id_id. destruct (String.eqb (id r) k'); [reflexivity | exact IH].
Qed.

(** The row with key [k] is rewritten when it is the caller's ... *)
Lemma find_by_id_eq (tbl : list Row) (r : Row) :
  find k tbl = Some r -> assigned_to uid r = true ->
  find k (map (by_id uid now k u) tbl) = Some (set_row now u r).
Proof.
  intros H Ha. rewrite find_by_id, H. simpl. unfold by_id.
  apply find_id in H. rewrite H, String.eqb_refl, Ha. reflexivity.
Qed.

(** ... it is kept when the policy hides it from the caller ... *)
Lemma find_by_id_hidden (tbl : list Row) (r : Row) :
  find k tbl = Some r -> assigned_to uid r = false ->
  find k (map (by_id uid now k u) tbl) = Some r.
Proof.
  intros H Ha. rewrite find_by_id, H. simpl. unfold by_id.
  rewrite Ha, andb_false_r. reflexivity.
Qed.

(** ... and every other row is kept. *)
Lemma find_by_id_ne (k' : string) (tbl : list Row) :
  k' <> k -> find k' (map (by_id uid now k u) tbl) = find k' tbl.
Proof.
  intros Hne. rewrite find_by_id. destruct (find k' tbl) as [r|] eqn:E; [|reflexivity].
  simpl. unfold by_id. apply find_id in E. subst k'.
  destruct (String.eqb_spec (id r) k); [contradiction | reflexivity].
Qed.

(** An update that reaches no row leaves the table as it is. *)
Lemma map_by_id_none (tbl : list Row) :
  (forall r, In r tbl -> id r = k -> assigned_to uid r = false) ->
  map (by_id uid now k u) tbl = tbl.
Proof.
  intros H. rewrite <- (map_id tbl) at 2. apply map_ext_in. intros r Hin.
  unfold by_id. destruct (String.eqb_spec (id r) k) as [Hk|Hk]; [|reflexivity].
  now rewrite (H r Hin Hk).
Qed.

Lemma map_by_id_absent (tbl : list Row) :
  find k tbl = None -> map (by_id uid now k u) tbl = tbl.
Proof.
  intros Hnone. apply map_by_id_none. intros r Hin Hk. exfalso.
  unfold find in Hnone. pose proof (find_none _ _ Hnone r Hin) as H. simpl in H.
  rewrite Hk, String.eqb_refl in H. discriminate.
Qed.

Lemma map_by_id_hidden (tbl : list Row) (row : Row) :
  distinct (map id tbl) = true ->
  find k tbl = Some row -> assigned_to uid row = false ->
  map (by_id uid now k u) tbl = tbl.
Proof.
  intros Hd Hf Ha. apply map_by_id_none. intros r Hin Hk.
  now rewrite (find_unique k tbl row r Hd Hf Hin Hk).
Qed.

Hypothesis allowed :
  exists st, set_status u = Some st /\ mem_string st statuses = true.

Hypothesis keeps_driver :
  forall r, assigned_to uid r = true -> assigned_to uid (set_row now u r) = true.

Lemma update_by_id (tbl : list Row) :
  distinct (map id tbl) = true ->
  update uid now u [eq "id" k] tbl = PgOk (map (by_id uid now k u) tbl).
Proof.
  intros Hpk. unfold update.
  assert (Hchk : forall l, (forall r, In r l -> assigned_to uid r = true) ->
                   first_refusal uid (map (set_row now u) l) = None).
  { induction l as [|r t IH]; intros Hl; simpl; [reflexivity|].
    unfold refused. rewrite (keeps_driver r (Hl r (or_introl eq_refl))). cbn [negb].
    destruct allowed as [st [Hs Hm]].
    assert (Hst : status_check (set_row now u r) = true)
      by (unfold status_check; simpl; now rewrite Hs).
    rewrite Hst. cbn [negb]. apply IH. intros x Hx. apply Hl. now right. }
  rewrite Hchk.
  - assert (Hmap : map (fun r => if target uid [eq "id" k] r then set_row now u r else r) tbl
                   = map (by_id uid now k u) tbl).
    { apply map_ext. intros r. unfold by_id. now rewrite target_id. }
    rewrite Hmap, map_map.
    rewrite (map_ext (fun r => id (by_id uid now k u r)) id by_id_id), Hpk. reflexivity.
  - intros r Hin. apply filter_In in Hin. destruct Hin as [_ Ht].
    unfold target in Ht. apply andb_true_iff in Ht. tauto.
Qed.

End UpdateById.

(** ** Runs of the deliveries screen's handlers *)

Section DeliveriesScreenRuns.

Import DeliveriesScreen.

(** An update filtered on the key, accepted by the server. *)
Lemma rpc_update_by_id (uid : option string) (u : deliveries.Update) (k : string)
    (w : World) :
  deliveries.set_id u = None ->
  (exists st, deliveries.set_status u = Some st
              /\ mem_string st deliveries.statuses = true) ->
  (forall r, deliveries.assigned_to uid r = true ->
             deliveries.assigned_to uid
               (deliveries.set_row (now (oracle w (served w))) u r) = true) ->
  reachable (oracle w (served w)) = true ->
  distinct (map deliveries.id (tbl_deliveries (db w))) = true ->
  rpc uid (update_deliveries u [deliveries.eq "id" k]) w =
  (None,
   mkWorld
     (mkDb (map (deliveries.by_id uid (now (oracle w (served w))) k u)
              (tbl_deliveries (db w)))
        (tbl_driver_locations (db w)) (tbl_service_requests (db w)))
     (log w ++ [sent (update_deliveries u [deliveries.eq "id" k])])
     (S (served w)) (oracle w)).
Proof.
  intros Hid Hst Hkeep Hr Hpk. unfold rpc. rewrite Hr. unfold execute.
  rewrite (update_by_id _ _ _ _ Hid Hst Hkeep _ Hpk). reflexivity.
Qed.

(** The reads leave the database alone and send no write. *)
Lemma fetchDeliveries_reads (s : State) (w : World) :
  db (snd (fetchDeliveries s w)) = db w
  /\ exists evs, log (snd (fetchDeliveries s w)) = log w ++ evs
                 /\ filter is_sent_write evs = []
                 /\ filter is_alert evs = [].
Proof.
  unfold fetchDeliveries. destruct (user s) as [uid|].
  - unfold bind, query_deliveries. destruct (reachable _); simpl.
    + split; [reflexivity|]. exists [sent (select_deliveries_for uid)]. now simpl.
    + split; [reflexivity|].
      exists [sent (select_deliveries_for uid);
              console_error "Error fetching deliveries:"].
      split; [now rewrite <- app_assoc | now simpl].
  - simpl. split; [reflexivity|]. exists []. split; [now rewrite app_nil_r | now simpl].
Qed.

Lemma accept_values_allowed (uid : string) :
  exists st, deliveries.set_status (accept_values uid) = Some st
             /\ mem_string st deliveries.statuses = true.
Proof. exists "assigned". split; reflexivity. Qed.

(** The row an accept writes is the caller's. *)
Lemma accept_values_mine (uid now : string) (r : deliveries.Row) :
  deliveries.assigned_to (Some uid) (deliveries.set_row now (accept_values uid) r) = true.
Proof. unfold deliveries.assigned_to. simpl. apply String.eqb_refl. Qed.

(** A status update does not change whose the row is. *)
Lemma updateData_same_driver (uid : option string) (st date now : string)
    (r : deliveries.Row) :
  deliveries.assigned_to uid (deliveries.set_row now (updateData st date) r) =
  deliveries.assigned_to uid r.
Proof. reflexivity. Qed.

(** The database after an [acceptDelivery] that reached the server. *)
Lemma acceptDelivery_db (k uid : string) (s : State) (w : World) :
  user s = Some uid ->
  reachable (oracle w (served w)) = true ->
  distinct (map deliveries.id (tbl_deliveries (db w))) = true ->
  db (snd (acceptDelivery k s w)) =
  mkDb (map (deliveries.by_id (Some uid) (now (oracle w (served w))) k (accept_values uid))
          (tbl_deliveries (db w)))
    (tbl_driver_locations (db w)) (tbl_service_requests (db w)).
Proof.
  intros Hu Hr Hpk. unfold acceptDelivery. rewrite Hu. unfold bind at 1.
  rewrite (rpc_update_by_id (Some uid) (accept_values uid) k w eq_refl
             (accept_values_allowed uid)
             (fun r _ => accept_values_mine uid _ r) Hr Hpk).
  unfold bind.
  match goal with |- context [fetchDeliveries s ?w1] =>
    destruct (fetchDeliveries_reads s w1) as [Hdb _];
    destruct (fetchDeliveries s w1) as [s' w2] end.
  simpl in *. exact Hdb.
Qed.

(** The database after an [updateDeliveryStatus] that reached the
    server with a status the table allows. *)
Lemma updateDeliveryStatus_db (dev : Device) (k st : string) (s : State) (w : World) :
  mem_string st deliveries.statuses = true ->
  reachable (oracle w (served w)) = true ->
  distinct (map deliveries.id (tbl_deliveries (db w))) = true ->
  db (snd (updateDeliveryStatus dev k st s w)) =
  mkDb (map (deliveries.by_id (user s) (now (oracle w (served w))) k
               (updateData st (date_iso dev)))
          (tbl_deliveries (db w)))
    (tbl_driver_locations (db w)) (tbl_service_requests (db w)).
Proof.
  intros Hst Hr Hpk. unfold updateDeliveryStatus. unfold bind at 1.
  rewrite (rpc_update_by_id (user s) (updateData st (date_iso dev)) k w eq_refl
             (ex_intro _ st (conj eq_refl Hst)) (fun r H => H) Hr Hpk).
  match goal with |- context [fetchDeliveries s ?w1] =>
    destruct (fetchDeliveries_reads s w1) as [Hdb _] end.
  exact Hdb.
Qed.



(** The card's [isMyDelivery] is the condition of the update policy. *)
Lemma isMyDelivery_assigned (s : State) (item : deliveries.Row) :
  isMyDelivery s item = deliveries.assigned_to (user s) item.
Proof. reflexivity. Qed.



End DeliveriesScreenRuns.

(** ** What a handler adds to the log *)

Section Traces.

Import DeliveriesScreen.

Lemma new_events_app (w w' : World) (evs : list Event) :
  log w' = log w ++ evs -> new_events w w' = evs.
Proof.
  intros H. unfold new_events. rewrite H, skipn_app, skipn_all, Nat.sub_diag.
  reflexivity.
Qed.

(** The world after a request. *)
Lemma rpc_world (uid : option string) (r : Request) (w : World) :
  log (snd (rpc uid r w)) = log w ++ [sent r]
  /\ served (snd (rpc uid r w)) = S (served w)
  /\ oracle (snd (rpc uid r w)) = oracle w
  /\ (fst (rpc uid r w) <> None -> db (snd (rpc uid r w)) = db w).
Proof.
  unfold rpc. destruct (reachable _).
  - destruct (execute _ uid r (db w)); simpl; repeat split; congruence.
  - simpl. repeat split.
Qed.

(** [updateDeliveryStatus] sends exactly one write, for any id and any
    requested status; when it fails the error is logged, the generic
    alert is shown and nothing is stored. *)
Lemma updateDeliveryStatus_trace (dev : Device) (k st : string) (s : State) (w : World) :
  let r := update_deliveries (updateData st (date_iso dev)) [deliveries.eq "id" k] in
  let w' := snd (updateDeliveryStatus dev k st s w) in
  exists evs,
    new_events w w' = sent r :: evs
    /\ filter is_sent_write evs = []
    /\ (fst (rpc (user s) r w) <> None ->
        evs = [console_error "Error updating delivery status:";
               alert "Error" "Failed to update delivery status"]
        /\ db w' = db w)
    /\ (fst (rpc (user s) r w) = None -> filter is_alert evs = []).
Proof.
  intros r w'. subst w'. unfold updateDeliveryStatus, bind. fold r.
  destruct (rpc_world (user s) r w) as [Hl [_ [_ Hdb]]].
  destruct (rpc (user s) r w) as [[c|] w1]; simpl in *.
  - exists [console_error "Error updating delivery status:";
            alert "Error" "Failed to update delivery status"].
    split; [|split; [reflexivity|split]].
    + apply new_events_app. simpl. now rewrite Hl, <- !app_assoc.
    + intros _. split; [reflexivity|]. apply Hdb. discriminate.
    + discriminate.
  - destruct (fetchDeliveries_reads s w1) as [_ [evs [He [Hw Ha]]]].
    exists evs. split; [|split; [exact Hw|split]].
    + apply new_events_app. now rewrite He, Hl, <- app_assoc.
    + intros H. now contradiction H.
    + intros _. exact Ha.
Qed.

(** The same for [acceptDelivery], once a user is signed in. *)
Lemma acceptDelivery_trace (k uid : string) (s : State) (w : World) :
  user s = Some uid ->
  let r := update_deliveries (accept_values uid) [deliveries.eq "id" k] in
  let w' := snd (acceptDelivery k s w) in
  exists evs,
    new_events w w' = sent r :: evs
    /\ filter is_sent_write evs = []
    /\ (fst (rpc (Some uid) r w) <> None ->
        evs = [console_error "Error accepting delivery:";
               alert "Error" "Failed to accept delivery"]
        /\ db w' = db w)
    /\ (fst (rpc (Some uid) r w) = None ->
        filter is_alert evs = [alert "Success" "Delivery accepted!"]).
Proof.
  intros Hu r w'. subst w'. unfold acceptDelivery. rewrite Hu. unfold bind. fold r.
  destruct (rpc_world (Some uid) r w) as [Hl [_ [_ Hdb]]].
  destruct (rpc (Some uid) r w) as [[c|] w1]; simpl in *.
  - exists [console_error "Error accepting delivery:";
            alert "Error" "Failed to accept delivery"].
    split; [|split; [reflexivity|split]].
    + apply new_events_app. simpl. now rewrite Hl, <- !app_assoc.
    + intros _. split; [reflexivity|]. apply Hdb. discriminate.
    + discriminate.
  - destruct (fetchDeliveries_reads s w1) as [_ [evs [He [Hw Ha]]]].
    destruct (fetchDeliveries s w1) as [s' w2]. simpl in *.
    exists (evs ++ [alert "Success" "Delivery accepted!"]).
    split; [|split; [|split]].
    + apply new_events_app. simpl. now rewrite He, Hl, <- !app_assoc.
    + now rewrite filter_app, Hw.
    + intros H. now contradiction H.
    + intros _. now rewrite filter_app, Ha.
Qed.

(** A request that reaches the server and is accepted returns no
    error. *)
Lemma rpc_accepted (uid : option string) (r : Request) (w : World) (d : Db) :
  reachable (oracle w (served w)) = true ->
  execute (oracle w (served w)) uid r (db w) = PgOk d ->
  fst (rpc uid r w) = None.
Proof. intros Hr He. unfold rpc. now rewrite Hr, He. Qed.

End Traces.

(** ** Accepting a delivery *)

Section Accept.

Import DeliveriesScreen.

(** What an accept by [D] does to a stored row that is not [D]'s:
    nothing, and the handler is told of no error. *)
Lemma acceptDelivery_hidden (k D : string) (row : deliveries.Row) (s : State) (w : World) :
  user s = Some D ->
  deliveries.find k (tbl_deliveries (db w)) = Some row ->
  deliveries.assigned_to (Some D) row = false ->
  distinct (map deliveries.id (tbl_deliveries (db w))) = true ->
  reachable (oracle w (served w)) = true ->
  db (snd (acceptDelivery k s w)) = db w
  /\ exists evs,
       new_events w (snd (acceptDelivery k s w)) =
       sent (update_deliveries (accept_values D) [deliveries.eq "id" k]) :: evs
       /\ filter is_sent_write evs = []
       /\ filter is_alert evs = [alert "Success" "Delivery accepted!"].
Proof.
  intros Hu Hfind Hhid Hpk Hr. split.
  - rewrite (acceptDelivery_db k D s w Hu Hr Hpk).
    rewrite (map_by_id_hidden _ _ _ _ _ row Hpk Hfind Hhid). now destruct (db w).
  - destruct (acceptDelivery_trace k D s w Hu) as [evs [He [Hw [_ Hok]]]].
    exists evs. split; [exact He | split; [exact Hw|]]. apply Hok.
    rewrite (rpc_update_by_id (Some D) (accept_values D) k w eq_refl
               (accept_values_allowed D) (fun r _ => accept_values_mine D _ r) Hr Hpk).
    reflexivity.
Qed.



(** The pending delivery of the sample data after driver-2 has been
    told it was accepted. *)
Example accepted_delivery_is_still_pending :
  option_map (fun r => (deliveries.status r, deliveries.driver_id r))
    (deliveries.find "d-1"
       (tbl_deliveries (db (snd (acceptDelivery "d-1" driver_2 sample_world))))) =
  Some ("pending", None).
Proof. reflexivity. Qed.

(** C2, as stated, fails: a delivery that another driver holds is
    not overwritten. Driver-2's accept of the delivery of driver-1 is
    filtered out by the update policy and the row stays as it was. *)
Lemma accept_does_not_overwrite_another_driver :
  deliveries.driver_id claimed_delivery = Some "driver-1"
  /\ user driver_2 = Some "driver-2"
  /\ filter is_sent_write
       (new_events sample_world (snd (acceptDelivery "d-2" driver_2 sample_world))) =
     [sent (update_deliveries (accept_values "driver-2") [deliveries.eq "id" "d-2"])]
  /\ deliveries.find "d-2"
       (tbl_deliveries (db (snd (acceptDelivery "d-2" driver_2 sample_world)))) =
     Some claimed_delivery.
Proof. repeat split. Qed.

(** C2, amended. The request of [acceptDelivery] is an update of
    [driver_id] and [status] whose only filter is the delivery id: it
    carries no condition on the current driver or status. The server
    applies it under the update policy of the table: a row that
    already carries the caller's id is set to 'assigned' whatever its
    status was, a row held by another driver is left as it is, no
    other row is touched, and in both cases the caller is told of no
    error. *)
Theorem accept_reaches_only_own_rows
    (D2 k : string) (row : deliveries.Row) (s : State) (w : World) :
  user s = Some D2 ->
  deliveries.find k (tbl_deliveries (db w)) = Some row ->
  distinct (map deliveries.id (tbl_deliveries (db w))) = true ->
  reachable (oracle w (served w)) = true ->
  let w' := snd (acceptDelivery k s w) in
  (exists evs,
      new_events w w' =
      sent (update_deliveries (accept_values D2) [deliveries.eq "id" k]) :: evs
      /\ filter is_sent_write evs = []
      /\ filter is_alert evs = [alert "Success" "Delivery accepted!"])
  /\ deliveries.keys (accept_values D2) = ["driver_id"; "status"]
  /\ (deliveries.driver_id row = Some D2 ->
      deliveries.find k (tbl_deliveries (db w')) =
      Some (deliveries.mkRow
              (deliveries.id row) (deliveries.service_request_id row)
              (Some D2)
              (deliveries.pickup_location row) (deliveries.delivery_location row)
              "assigned"
              (deliveries.estimated_delivery_time row)
              (deliveries.actual_delivery_time row)
              (deliveries.delivery_fee row) (deliveries.distance_km row)
              (deliveries.driver_notes row) (deliveries.created_at row)
              (now (oracle w (served w)))))
  /\ (forall D1, deliveries.driver_id row = Some D1 -> D1 <> D2 -> db w' = db w)
  /\ (forall k', k' <> k ->
        deliveries.find k' (tbl_deliveries (db w')) =
        deliveries.find k' (tbl_deliveries (db w))).
Proof.
  intros Hu Hfind Hpk Hr w'. subst w'.
  assert (Hrpc : fst (rpc (Some D2) (update_deliveries (accept_values D2)
                                      [deliveries.eq "id" k]) w) = None).
  { rewrite (rpc_update_by_id (Some D2) (accept_values D2) k w eq_refl
               (accept_values_allowed D2) (fun r _ => accept_values_mine D2 _ r) Hr Hpk).
    reflexivity. }
  split; [|split; [reflexivity|split; [|split]]].
  - destruct (acceptDelivery_trace k D2 s w Hu) as [evs [He [Hw [_ Hok]]]].
    exists evs. split; [exact He | split; [exact Hw | now apply Hok]].
  - intros Hmine. rewrite (acceptDelivery_db _ D2 s w Hu Hr Hpk). simpl.
    rewrite (find_by_id_eq _ _ _ (accept_values D2) eq_refl _ _ Hfind); [reflexivity|].
    unfold deliveries.assigned_to. rewrite Hmine. apply String.eqb_refl.
  - intros D1 Hd Hne.
    apply (acceptDelivery_hidden k D2 row s w Hu Hfind); try assumption.
    unfold deliveries.assigned_to. rewrite Hd.
    destruct (String.eqb_spec D1 D2); [contradiction | reflexivity].
  - intros k' Hne. rewrite (acceptDelivery_db _ D2 s w Hu Hr Hpk). simpl.
    now apply (find_by_id_ne _ _ _ (accept_values D2) eq_refl).
Qed.

End Accept.

(** The delivery of driver-1 of the sample data, accepted again by
    driver-1 and by driver-2. *)
Lemma accept_reaches_only_own_rows_witness :
  let w' := snd (DeliveriesScreen.acceptDelivery "d-2" driver_2 sample_world) in
  (exists evs,
      new_events sample_world w' =
      sent (update_deliveries (DeliveriesScreen.accept_values "driver-2")
              [deliveries.eq "id" "d-2"]) :: evs
      /\ filter is_sent_write evs = []
      /\ filter is_alert evs = [alert "Success" "Delivery accepted!"])
  /\ deliveries.keys (DeliveriesScreen.accept_values "driver-2") = ["driver_id"; "status"]
  /\ (deliveries.driver_id claimed_delivery = Some "driver-2" ->
      deliveries.find "d-2" (tbl_deliveries (db w')) =
      Some (deliveries.mkRow
              (deliveries.id claimed_delivery)
              (deliveries.service_request_id claimed_delivery)
              (Some "driver-2")
              (deliveries.pickup_location claimed_delivery)
              (deliveries.delivery_location claimed_delivery)
              "assigned"
              (deliveries.estimated_delivery_time claimed_delivery)
              (deliveries.actual_delivery_time claimed_delivery)
              (deliveries.delivery_fee claimed_delivery)
              (deliveries.distance_km claimed_delivery)
              (deliveries.driver_notes claimed_delivery)
              (deliveries.created_at claimed_delivery)
              (now (oracle sample_world (served sample_world)))))
  /\ (forall D1, deliveries.driver_id claimed_delivery = Some D1 -> D1 <> "driver-2" ->
        db w' = db sample_world)
  /\ (forall k', k' <> "d-2" ->
        deliveries.find k' (tbl_deliveries (db w')) =
        deliveries.find k' (tbl_deliveries (db sample_world))).
Proof.
  apply (accept_reaches_only_own_rows "driver-2" "d-2" claimed_delivery driver_2
           sample_world).
  - reflexivity.
  - reflexivity.
  - reflexivity.
  - reflexivity.
Defined.

(** A delivery the driver has already picked up goes back to
    'assigned' when the same driver's accept reaches it. *)
Example own_delivery_is_set_back :
  option_map deliveries.status
    (deliveries.find "d-3"
       (tbl_deliveries
          (db (snd (DeliveriesScreen.acceptDelivery "d-3" driver_1 busy_world))))) =
  Some "assigned".
Proof. reflexivity. Qed.

(** ** Advancing the status *)

Section Advance.

Import DeliveriesScreen.

(** What a status update by the assigned driver stores. *)
Lemma updateDeliveryStatus_own (dev : Device) (k st D : string) (row : deliveries.Row)
    (s : State) (w : World) :
  user s = Some D ->
  deliveries.driver_id row = Some D ->
  mem_string st deliveries.statuses = true ->
  deliveries.find k (tbl_deliveries (db w)) = Some row ->
  distinct (map deliveries.id (tbl_deliveries (db w))) = true ->
  reachable (oracle w (served w)) = true ->
  let w' := snd (updateDeliveryStatus dev k st s w) in
  deliveries.find k (tbl_deliveries (db w')) =
  Some (deliveries.set_row (now (oracle w (served w))) (updateData st (date_iso dev)) row)
  /\ (forall k', k' <> k ->
        deliveries.find k' (tbl_deliveries (db w')) =
        deliveries.find k' (tbl_deliveries (db w)))
  /\ tbl_driver_locations (db w') = tbl_driver_locations (db w)
  /\ tbl_service_requests (db w') = tbl_service_requests (db w).
Proof.
  intros Hu Hd Hst Hfind Hpk Hr w'. subst w'.
  rewrite (updateDeliveryStatus_db dev k st s w Hst Hr Hpk). simpl.
  split; [|split; [|split; reflexivity]].
  - apply (find_by_id_eq _ _ _ (updateData st (date_iso dev)) eq_refl _ _ Hfind).
    rewrite Hu. unfold deliveries.assigned_to. rewrite Hd. apply String.eqb_refl.
  - intros k' Hne. now apply (find_by_id_ne _ _ _ (updateData st (date_iso dev)) eq_refl).
Qed.




(** The handler lets a step be skipped: asked by the assigned driver
    for 'delivered' on a delivery that is only 'assigned', it stores
    'delivered'. *)
Example status_skip_is_stored :
  option_map deliveries.status
    (deliveries.find "d-2"
       (tbl_deliveries
          (db (snd (updateDeliveryStatus phone "d-2" "delivered" driver_1 sample_world))))) =
  Some "delivered".
Proof. reflexivity. Qed.

(** C4. For every delivery id and requested status, the one write of
    [updateDeliveryStatus] is an update filtered on the id that
    carries the requested status, carries [actual_delivery_time], set
    to the device's current time, exactly when the requested status is
    'delivered', and carries no other column. Sent by the assigned
    driver with one of the six statuses of the table, it is applied:
    the stored delivery then has the requested status, has the
    device's time as [actual_delivery_time] if the status is
    'delivered' and its former value otherwise, and keeps all its
    other columns ([updated_at] is stamped by the table's trigger);
    no other delivery changes. *)
Theorem status_update_payload
    (dev : Device) (k st : string) (s : State) (w : World) :
  let u := updateData st (date_iso dev) in
  let w' := snd (updateDeliveryStatus dev k st s w) in
  (exists evs,
      new_events w w' = sent (update_deliveries u [deliveries.eq "id" k]) :: evs
      /\ filter is_sent_write evs = [])
  /\ deliveries.set_status u = Some st
  /\ (deliveries.set_actual_delivery_time u = Some (Some (date_iso dev))
      <-> st = "delivered")
  /\ (st <> "delivered" -> deliveries.set_actual_delivery_time u = None)
  /\ deliveries.keys u =
     (if String.eqb st "delivered" then ["status"; "actual_delivery_time"]
      else ["status"])
  /\ (forall D row,
         user s = Some D ->
         deliveries.driver_id row = Some D ->
         mem_string st deliveries.statuses = true ->
         deliveries.find k (tbl_deliveries (db w)) = Some row ->
         distinct (map deliveries.id (tbl_deliveries (db w))) = true ->
         reachable (oracle w (served w)) = true ->
         deliveries.find k (tbl_deliveries (db w')) =
         Some (deliveries.mkRow
                 (deliveries.id row) (deliveries.service_request_id row)
                 (deliveries.driver_id row)
                 (deliveries.pickup_location row) (deliveries.delivery_location row)
                 st
                 (deliveries.estimated_delivery_time row)
                 (if String.eqb st "delivered" then Some (date_iso dev)
                  else deliveries.actual_delivery_time row)
                 (deliveries.delivery_fee row) (deliveries.distance_km row)
                 (deliveries.driver_notes row) (deliveries.created_at row)
                 (now (oracle w (served w))))
         /\ (forall k', k' <> k ->
               deliveries.find k' (tbl_deliveries (db w')) =
               deliveries.find k' (tbl_deliveries (db w)))
         /\ tbl_driver_locations (db w') = tbl_driver_locations (db w)
         /\ tbl_service_requests (db w') = tbl_service_requests (db w)).
Proof.
  intros u w'. subst u w'. split; [|split; [reflexivity|split; [|split; [|split]]]].
  - destruct (updateDeliveryStatus_trace dev k st s w) as [evs [He [Hw _]]].
    exists evs. split; assumption.
  - simpl. destruct (String.eqb_spec st "delivered"); split; congruence.
  - simpl. intros Hne. destruct (String.eqb_spec st "delivered"); congruence.
  - unfold deliveries.keys. simpl.
    destruct (String.eqb st "delivered"); reflexivity.
  - intros D row Hu Hd Hst Hfind Hpk Hr.
    destruct (updateDeliveryStatus_own dev k st D row s w Hu Hd Hst Hfind Hpk Hr)
      as [Hf Hrest].
    split; [|exact Hrest]. rewrite Hf. unfold deliveries.set_row. simpl.
    destruct (String.eqb st "delivered"); reflexivity.
Qed.

(** The delivery of driver-1 of the sample data, marked delivered. *)
Example delivered_is_stamped :
  deliveries.find "d-2"
    (tbl_deliveries
       (db (snd (updateDeliveryStatus phone "d-2" "delivered" driver_1 sample_world)))) =
  Some (deliveries.mkRow "d-2" "sr-2" (Some "driver-1") "3 Elm Rd" "9 Ash Ct" "delivered"
          None (Some "2025-07-25T09:00:00.000Z") None None None
          "2025-07-24T21:00:00Z" "2025-07-25T09:00:00Z").
Proof. reflexivity. Qed.

End Advance.

(** ** The [driver_locations] table under an upsert *)

Section Upsert.

Import driver_locations.

Lemma mem_string_snoc (x a : string) (l : list string) :
  mem_string a (l ++ [x]) = mem_string a l || String.eqb a x.
Proof.
  unfold mem_string. rewrite existsb_app. simpl. now rewrite orb_false_r.
Qed.

Lemma distinct_snoc (l : list string) (x : string) :
  distinct (l ++ [x]) = distinct l && negb (mem_string x l).
Proof.
  induction l as [|a r IH]; simpl; [reflexivity|].
  rewrite IH, mem_string_snoc, (String.eqb_sym x a).
  destruct (mem_string a r), (String.eqb a x), (distinct r), (mem_string x r);
    reflexivity.
Qed.

Lemma mem_driver (d : string) (tbl : list Row) :
  mem_string d (map driver_id tbl) = existsb (has_driver d) tbl.
Proof.
  unfold mem_string, has_driver. induction tbl as [|r t IH]; simpl; [reflexivity|].
  now rewrite IH, (String.eqb_sym d).
Qed.

Lemma mem_id (k : string) (tbl : list Row) :
  mem_string k (map id tbl) = existsb (has_id k) tbl.
Proof.
  unfold mem_string, has_id. induction tbl as [|r t IH]; simpl; [reflexivity|].
  now rewrite IH, (String.eqb_sym k).
Qed.

Lemma by_driver_nil (d : string) (tbl : list Row) :
  by_driver d tbl = [] <-> existsb (has_driver d) tbl = false.
Proof.
  unfold by_driver. induction tbl as [|r t IH]; simpl; [tauto|].
  destruct (has_driver d r); simpl; [split; discriminate | exact IH].
Qed.

(** Whatever the arbiter, an accepted upsert leaves the table with
    its primary key and its UNIQUE (driver_id) intact. *)
Lemma upsert_keys_ok (uuid now : string) (v : Insert) (oc : option string)
    (tbl tbl' : list Row) :
  upsert uuid now v oc tbl = PgOk tbl' -> keys_ok tbl' = true.
Proof.
  unfold upsert. destruct (arbiter oc) as [a|]; [|discriminate].
  match goal with |- context [keys_ok ?t] => destruct (keys_ok t) eqn:E end;
    [|discriminate].
  intros H. injection H as <-. exact E.
Qed.

(** At most one row per driver. *)
Lemma keys_ok_one_row (tbl : list Row) (d : string) :
  keys_ok tbl = true -> length (by_driver d tbl) <= 1.
Proof.
  unfold keys_ok. rewrite andb_true_iff. intros [_ H]. unfold by_driver.
  induction tbl as [|r t IH]; simpl in *; [lia|].
  rewrite andb_true_iff, negb_true_iff in H. destruct H as [Hm Hd].
  destruct (has_driver d r) eqn:E; [|now apply IH].
  unfold has_driver in E. apply String.eqb_eq in E. rewrite E, mem_driver in Hm.
  apply by_driver_nil in Hm. unfold by_driver in Hm. rewrite Hm. simpl. lia.
Qed.

(** Without [on_conflict] the payload of the screen, which has no
    [id], never meets the arbiter: the statement is a plain insert.
    It is accepted when the driver has no row yet ... *)
Lemma upsert_first_row (uuid now : string) (v : Insert) (tbl : list Row) :
  ins_id v = None ->
  keys_ok tbl = true ->
  existsb (has_id uuid) tbl = false ->
  by_driver (ins_driver_id v) tbl = [] ->
  upsert uuid now v None tbl = PgOk (tbl ++ [new_row uuid now v]).
Proof.
  intros Hid Hk Hfresh Hnone. unfold upsert. cbn [arbiter].
  change (duplicate on_primary_key (new_row uuid now v))
    with (has_id (id (new_row uuid now v))).
  assert (Hn : id (new_row uuid now v) = uuid) by (simpl; now rewrite Hid).
  rewrite Hn, Hfresh. unfold keys_ok in *. rewrite !map_app.
  cbn [map id driver_id new_row]. rewrite Hid. cbn [or_keep].
  rewrite !distinct_snoc, mem_id, Hfresh, mem_driver.
  apply by_driver_nil in Hnone. rewrite Hnone.
  apply andb_true_iff in Hk. destruct Hk as [-> ->]. reflexivity.
Qed.

(** ... and rejected by UNIQUE (driver_id) as soon as the driver has
    one. *)
Lemma upsert_second_row (uuid now : string) (v : Insert) (tbl : list Row) :
  ins_id v = None ->
  existsb (has_id uuid) tbl = false ->
  by_driver (ins_driver_id v) tbl <> [] ->
  upsert uuid now v None tbl = PgError unique_violation.
Proof.
  intros Hid Hfresh Hsome. unfold upsert. cbn [arbiter].
  change (duplicate on_primary_key (new_row uuid now v))
    with (has_id (id (new_row uuid now v))).
  assert (Hn : id (new_row uuid now v) = uuid) by (simpl; now rewrite Hid).
  rewrite Hn, Hfresh. unfold keys_ok. rewrite !map_app.
  cbn [map id driver_id new_row]. rewrite !distinct_snoc, mem_driver.
  destruct (existsb (has_driver (ins_driver_id v)) tbl) eqn:E.
  - simpl. now rewrite !andb_false_r.
  - apply by_driver_nil in E. contradiction.
Qed.

(** A payload without coordinates leaves the stored ones alone,
    whatever the arbiter and whether or not the statement succeeds. *)
Lemma upsert_keeps_coordinates (uuid now : string) (v : Insert) (oc : option string)
    (tbl tbl' : list Row) (r : Row) :
  ins_id v = None -> ins_latitude v = None -> ins_longitude v = None ->
  upsert uuid now v oc tbl = PgOk tbl' ->
  In r tbl ->
  exists r', In r' tbl' /\ id r' = id r
             /\ latitude r' = latitude r /\ longitude r' = longitude r.
Proof.
  intros Hid Hlat Hlon Hup Hin. unfold upsert in Hup.
  destruct (arbiter oc) as [a|]; [|discriminate].
  match type of Hup with context [keys_ok ?t] => destruct (keys_ok t) end;
    [|discriminate].
  injection Hup as <-.
  destruct (existsb _ tbl).
  - exists (if duplicate a (new_row uuid now v) r then merge_row now v r else r).
    split; [apply in_map_iff; now exists r|].
    destruct (duplicate _ _ r); simpl; rewrite ?Hid, ?Hlat, ?Hlon; auto.
  - exists r. split; [apply in_or_app; now left | auto].
Qed.

(** The same statement resolved on [driver_id], for a payload
    without [id]: the driver's row absorbs the payload, the columns
    the payload does not carry keep their values, and no row is
    added. *)
Lemma upsert_on_driver_id (uuid now : string) (v : Insert) (tbl : list Row) :
  ins_id v = None ->
  keys_ok tbl = true ->
  by_driver (ins_driver_id v) tbl <> [] ->
  upsert uuid now v (Some "driver_id") tbl =
  PgOk (map (fun r => if has_driver (ins_driver_id v) r then merge_row now v r else r) tbl).
Proof.
  intros Hid Hk Hsome. unfold upsert. cbn [arbiter String.eqb Ascii.eqb Bool.eqb].
  change (duplicate on_driver_id (new_row uuid now v))
    with (has_driver (driver_id (new_row uuid now v))).
  cbn [driver_id new_row].
  destruct (existsb (has_driver (ins_driver_id v)) tbl) eqn:E;
    [|apply by_driver_nil in E; contradiction].
  assert (Hids : map id (map (fun r => if has_driver (ins_driver_id v) r
                                       then merge_row now v r else r) tbl) = map id tbl).
  { rewrite map_map. apply map_ext. intros r.
    destruct (has_driver (ins_driver_id v) r); [|reflexivity]. simpl. now rewrite Hid. }
  assert (Hdrv : map driver_id (map (fun r => if has_driver (ins_driver_id v) r
                                            then merge_row now v r else r) tbl)
                 = map driver_id tbl).
  { rewrite map_map. apply map_ext. intros r.
    destruct (has_driver (ins_driver_id v) r) eqn:Er; [|reflexivity]. simpl.
    unfold has_driver in Er. apply String.eqb_eq in Er. now symmetry. }
  unfold keys_ok in *. rewrite Hids, Hdrv, Hk. reflexivity.
Qed.

End Upsert.

(** ** The availability toggle *)

Section Availability.

Import DeliveriesScreen.

Lemma rpc_db_cases (uid : option string) (r : Request) (w : World) :
  db (snd (rpc uid r w)) = db w
  \/ execute (oracle w (served w)) uid r (db w) = PgOk (db (snd (rpc uid r w))).
Proof.
  unfold rpc. destruct (reachable _); [|now left].
  destruct (execute _ uid r (db w)); simpl; [now right | now left].
Qed.

(** A run of the toggle that gets as far as the request. *)
Lemma updateDriverAvailability_run (dev : Device) (available : bool)
    (uid : string) (location : option (Decimal * Decimal)) (s : State) (w : World) :
  user s = Some uid ->
  locationPermission s = true ->
  (if available then option_map Some (position dev) else Some None) = Some location ->
  let r := upsert_driver_locations
             (availability_values uid available location (date_iso dev)) None in
  let s' := fst (updateDriverAvailability dev available s w) in
  let w' := snd (updateDriverAvailability dev available s w) in
  db w' = db (snd (rpc (Some uid) r w))
  /\ (fst (rpc (Some uid) r w) = None ->
      new_events w w' = [sent r] /\ s' = setIsAvailable available s)
  /\ (fst (rpc (Some uid) r w) <> None ->
      new_events w w' =
      [sent r; console_error "Error updating driver availability:";
       alert "Error" "Failed to update availability status"]
      /\ s' = s /\ db w' = db w).
Proof.
  intros Hu Hp Hloc r. unfold updateDriverAvailability.
  rewrite Hu, Hp, Hloc. unfold bind. fold r.
  destruct (rpc_world (Some uid) r w) as [Hl [_ [_ Hdb]]].
  destruct (rpc (Some uid) r w) as [[c|] w1]; simpl in *.
  - split; [reflexivity|]. split; [discriminate|]. intros _.
    split; [|split; [reflexivity | apply Hdb; discriminate]].
    apply new_events_app. simpl. now rewrite Hl, <- !app_assoc.
  - split; [reflexivity|]. split; [|intros H; now contradiction H].
    intros _. split; [|reflexivity]. now apply new_events_app.
Qed.

(** C7. Going unavailable sends one upsert whose payload has
    [is_available] false and no [latitude] or [longitude]; going
    available sends one whose payload carries the sampled coordinates.
    What the server makes of them depends on whether the driver has a
    row. The first write of a driver is stored, the coordinates
    rounded to the eight decimals of the columns. Once the driver has
    a row the write is rejected (the upsert names no conflict target,
    see C8): the stored flag is not set to false, the new coordinates
    are not written, and the coordinates stay only because nothing is
    stored at all. An upsert resolved on [driver_id] would do with the
    same payloads what the claim says: set the flag and keep, or
    replace, the coordinates of the driver's row. *)
Theorem availability_write_and_its_fate
    (uid : string) (dev : Device) (lat lon : Decimal) (s : State) (w : World) :
  user s = Some uid ->
  locationPermission s = true ->
  position dev = Some (lat, lon) ->
  reachable (oracle w (served w)) = true ->
  driver_locations.keys_ok (tbl_driver_locations (db w)) = true ->
  existsb (driver_locations.has_id (gen_random_uuid (oracle w (served w))))
    (tbl_driver_locations (db w)) = false ->
  let uuid := gen_random_uuid (oracle w (served w)) in
  let tbl := tbl_driver_locations (db w) in
  let off := driver_locations.mkInsert None uid None None (Some false)
               (Some (date_iso dev)) in
  let on := driver_locations.mkInsert None uid (Some (Some lat)) (Some (Some lon))
              (Some true) (Some (date_iso dev)) in
  let w_off := snd (updateDriverAvailability dev false s w) in
  let w_on := snd (updateDriverAvailability dev true s w) in
  filter is_sent (new_events w w_off) = [sent (upsert_driver_locations off None)]
  /\ filter is_sent (new_events w w_on) = [sent (upsert_driver_locations on None)]
  /\ driver_locations.keys off = ["driver_id"; "is_available"; "updated_at"]
  /\ driver_locations.keys on =
     ["driver_id"; "latitude"; "longitude"; "is_available"; "updated_at"]
  /\ (driver_locations.by_driver uid tbl = [] ->
      tbl_driver_locations (db w_off) =
      tbl ++ [driver_locations.mkRow uuid uid None None false (date_iso dev)]
      /\ tbl_driver_locations (db w_on) =
         tbl ++ [driver_locations.mkRow uuid uid (Some (to_scale 8 lat))
                   (Some (to_scale 8 lon)) true (date_iso dev)])
  /\ (driver_locations.by_driver uid tbl <> [] ->
      (db w_off = db w
       /\ filter is_alert (new_events w w_off) =
          [alert "Error" "Failed to update availability status"])
      /\ (db w_on = db w
          /\ filter is_alert (new_events w w_on) =
             [alert "Error" "Failed to update availability status"])
      /\ driver_locations.upsert uuid (now (oracle w (served w))) off (Some "driver_id") tbl =
         PgOk (map (fun r =>
                      if driver_locations.has_driver uid r
                      then driver_locations.mkRow (driver_locations.id r) uid
                             (driver_locations.latitude r) (driver_locations.longitude r)
                             false (now (oracle w (served w)))
                      else r) tbl)
      /\ driver_locations.upsert uuid (now (oracle w (served w))) on (Some "driver_id") tbl =
         PgOk (map (fun r =>
                      if driver_locations.has_driver uid r
                      then driver_locations.mkRow (driver_locations.id r) uid
                             (Some (to_scale 8 lat)) (Some (to_scale 8 lon))
                             true (now (oracle w (served w)))
                      else r) tbl)).
Proof.
  intros Hu Hp Hpos Hr Hk Hfresh uuid tbl off on w_off w_on.
  assert (Hloc : (if true then option_map Some (position dev) else Some None)
                 = Some (Some (lat, lon))) by now rewrite Hpos.
  destruct (updateDriverAvailability_run dev false uid None s w Hu Hp eq_refl)
    as [Hdb [Hok Herr]].
  destruct (updateDriverAvailability_run dev true uid (Some (lat, lon)) s w Hu Hp Hloc)
    as [Hdb' [Hok' Herr']].
  change (availability_values uid false None (date_iso dev)) with off in *.
  change (availability_values uid true (Some (lat, lon)) (date_iso dev)) with on in *.
  fold w_off in Hdb, Hok, Herr. fold w_on in Hdb', Hok', Herr'.
  split; [|split; [|split; [reflexivity|split; [reflexivity|split]]]].
  - destruct (fst (rpc (Some uid) (upsert_driver_locations off None) w)) as [c|] eqn:E.
    + destruct Herr as [He _]; [discriminate|]. now rewrite He.
    + destruct (Hok eq_refl) as [He _]. now rewrite He.
  - destruct (fst (rpc (Some uid) (upsert_driver_locations on None) w)) as [c|] eqn:E.
    + destruct Herr' as [He _]; [discriminate|]. now rewrite He.
    + destruct (Hok' eq_refl) as [He _]. now rewrite He.
  - intros Hnone. split.
    + rewrite Hdb. unfold rpc. rewrite Hr. unfold execute.
      rewrite (upsert_first_row _ _ off _ eq_refl Hk Hfresh Hnone). reflexivity.
    + rewrite Hdb'. unfold rpc. rewrite Hr. unfold execute.
      rewrite (upsert_first_row _ _ on _ eq_refl Hk Hfresh Hnone). reflexivity.
  - intros Hsome.
    assert (Hfail : forall v, driver_locations.ins_id v = None ->
                      driver_locations.ins_driver_id v = uid ->
                      fst (rpc (Some uid) (upsert_driver_locations v None) w) <> None).
    { intros v Hid Hd. unfold rpc. rewrite Hr. unfold execute.
      rewrite (upsert_second_row _ _ v _ Hid Hfresh); [discriminate|].
      now rewrite Hd. }
    split; [|split; [|split]].
    + destruct (Herr (Hfail off eq_refl eq_refl)) as [He [_ Hd]].
      split; [exact Hd | now rewrite He].
    + destruct (Herr' (Hfail on eq_refl eq_refl)) as [He [_ Hd]].
      split; [exact Hd | now rewrite He].
    + rewrite (upsert_on_driver_id uuid _ off tbl eq_refl Hk Hsome). reflexivity.
    + rewrite (upsert_on_driver_id uuid _ on tbl eq_refl Hk Hsome). reflexivity.
Qed.

Lemma availability_write_and_its_fate_witness :
  let w := tracked_world in
  let uuid := gen_random_uuid (oracle w (served w)) in
  let tbl := tbl_driver_locations (db w) in
  let off := driver_locations.mkInsert None "driver-1" None None (Some false)
               (Some (date_iso phone)) in
  let on := driver_locations.mkInsert None "driver-1"
              (Some (Some (mkDecimal 45508888123%Z 9)))
              (Some (Some (mkDecimal (-73561668)%Z 6)))
              (Some true) (Some (date_iso phone)) in
  let w_off := snd (updateDriverAvailability phone false driver_1 w) in
  let w_on := snd (updateDriverAvailability phone true driver_1 w) in
  filter is_sent (new_events w w_off) = [sent (upsert_driver_locations off None)]
  /\ filter is_sent (new_events w w_on) = [sent (upsert_driver_locations on None)]
  /\ driver_locations.keys off = ["driver_id"; "is_available"; "updated_at"]
  /\ driver_locations.keys on =
     ["driver_id"; "latitude"; "longitude"; "is_available"; "updated_at"]
  /\ (driver_locations.by_driver "driver-1" tbl = [] ->
      tbl_driver_locations (db w_off) =
      tbl ++ [driver_locations.mkRow uuid "driver-1" None None false (date_iso phone)]
      /\ tbl_driver_locations (db w_on) =
         tbl ++ [driver_locations.mkRow uuid "driver-1"
                   (Some (to_scale 8 (mkDecimal 45508888123%Z 9)))
                   (Some (to_scale 8 (mkDecimal (-73561668)%Z 6))) true (date_iso phone)])
  /\ (driver_locations.by_driver "driver-1" tbl <> [] ->
      (db w_off = db w
       /\ filter is_alert (new_events w w_off) =
          [alert "Error" "Failed to update availability status"])
      /\ (db w_on = db w
          /\ filter is_alert (new_events w w_on) =
             [alert "Error" "Failed to update availability status"])
      /\ driver_locations.upsert uuid (now (oracle w (served w))) off (Some "driver_id") tbl =
         PgOk (map (fun r =>
                      if driver_locations.has_driver "driver-1" r
                      then driver_locations.mkRow (driver_locations.id r) "driver-1"
                             (driver_locations.latitude r) (driver_locations.longitude r)
                             false (now (oracle w (served w)))
                      else r) tbl)
      /\ driver_locations.upsert uuid (now (oracle w (served w))) on (Some "driver_id") tbl =
         PgOk (map (fun r =>
                      if driver_locations.has_driver "driver-1" r
                      then driver_locations.mkRow (driver_locations.id r) "driver-1"
                             (Some (to_scale 8 (mkDecimal 45508888123%Z 9)))
                             (Some (to_scale 8 (mkDecimal (-73561668)%Z 6)))
                             true (now (oracle w (served w)))
                      else r) tbl)).
Proof.
  apply (availability_write_and_its_fate "driver-1" phone (mkDecimal 45508888123%Z 9)
           (mkDecimal (-73561668)%Z 6) driver_1 tracked_world).
  - reflexivity.
  - reflexivity.
  - reflexivity.
  - reflexivity.
  - reflexivity.
  - reflexivity.
Defined.

(** The first toggle of a driver stores the sample rounded to eight
    decimals: 45.508888123 is kept as 45.50888812. *)
Example first_row_is_rounded :
  map (fun r => (driver_locations.latitude r, driver_locations.longitude r))
    (driver_locations.by_driver "driver-2"
       (tbl_driver_locations
          (db (snd (updateDriverAvailability phone true driver_2 tracked_world))))) =
  [(Some 4550888812%Z, Some (-7356166800)%Z)].
Proof. reflexivity. Qed.

End Availability.

(** ** One row per driver *)

Section OneRowPerDriver.

Import DeliveriesScreen.

(** What does hold of every toggle: whatever it does, the table
    keeps its primary key and its UNIQUE (driver_id), hence at most one
    row per driver. *)
Lemma availability_keeps_one_row_per_driver
    (dev : Device) (available : bool) (s : State) (w : World) (d : string) :
  driver_locations.keys_ok (tbl_driver_locations (db w)) = true ->
  let w' := snd (updateDriverAvailability dev available s w) in
  driver_locations.keys_ok (tbl_driver_locations (db w')) = true
  /\ length (driver_locations.by_driver d (tbl_driver_locations (db w'))) <= 1.
Proof.
  intros Hk w'.
  assert (H : driver_locations.keys_ok (tbl_driver_locations (db w')) = true).
  { subst w'. unfold updateDriverAvailability.
    destruct (user s) as [uid|]; [|exact Hk].
    destruct (locationPermission s); [|exact Hk].
    destruct (if available then option_map Some (position dev) else Some None)
      as [location|]; [|exact Hk].
    unfold bind.
    match goal with |- context [rpc ?u ?r w] =>
      destruct (rpc_db_cases u r w) as [Hd | Hd];
      destruct (rpc u r w) as [[c|] w1] end; simpl in *;
      try (rewrite Hd; exact Hk).
    - unfold execute in Hd.
      destruct (driver_locations.upsert _ _ _ None _) as [t|] eqn:Eu; [|discriminate].
      injection Hd as Hd. rewrite <- Hd. simpl.
      exact (upsert_keys_ok _ _ _ _ _ _ Eu).
    - unfold execute in Hd.
      destruct (driver_locations.upsert _ _ _ None _) as [t|] eqn:Eu; [|discriminate].
      injection Hd as Hd. rewrite <- Hd. simpl.
      exact (upsert_keys_ok _ _ _ _ _ _ Eu). }
  split; [exact H | now apply keys_ok_one_row].
Qed.

(** C8. The part that fails: the upsert names no conflict target and
    its payload has no [id], so the server runs it as a plain insert.
    Once the driver has a row, every later toggle is rejected by
    UNIQUE (driver_id): the row is not updated, the local flag does
    not change and the error alert is shown. *)
Theorem availability_rejected_once_row_exists
    (uid : string) (dev : Device) (available : bool) (s : State) (w : World) :
  user s = Some uid ->
  locationPermission s = true ->
  (available = true -> position dev <> None) ->
  reachable (oracle w (served w)) = true ->
  existsb (driver_locations.has_id (gen_random_uuid (oracle w (served w))))
    (tbl_driver_locations (db w)) = false ->
  driver_locations.by_driver uid (tbl_driver_locations (db w)) <> [] ->
  db (snd (updateDriverAvailability dev available s w)) = db w
  /\ fst (updateDriverAvailability dev available s w) = s
  /\ exists v,
       driver_locations.ins_driver_id v = uid
       /\ driver_locations.ins_is_available v = Some available
       /\ new_events w (snd (updateDriverAvailability dev available s w)) =
          [sent (upsert_driver_locations v None);
           console_error "Error updating driver availability:";
           alert "Error" "Failed to update availability status"].
Proof.
  intros Hu Hp Hpos Hr Hfresh Hrow.
  assert (Hloc : exists location,
             (if available then option_map Some (position dev) else Some None)
             = Some location).
  { destruct available; [|now exists None].
    destruct (position dev) as [p|]; [now exists (Some p)|].
    now contradiction Hpos. }
  destruct Hloc as [location Hloc].
  destruct (updateDriverAvailability_run dev available uid location s w Hu Hp Hloc)
    as [_ [_ Herr]].
  assert (Hfail : fst (rpc (Some uid) (upsert_driver_locations
                             (availability_values uid available location (date_iso dev))
                             None) w) <> None).
  { unfold rpc. rewrite Hr. unfold execute.
    rewrite (upsert_second_row _ _ (availability_values uid available location
                                      (date_iso dev)) _ eq_refl Hfresh Hrow).
    discriminate. }
  destruct (Herr Hfail) as [He [Hs Hdb]].
  split; [exact Hdb | split; [exact Hs|]].
  exists (availability_values uid available location (date_iso dev)).
  repeat split. exact He.
Qed.

Lemma availability_rejected_once_row_exists_witness :
  db (snd (updateDriverAvailability phone false driver_1 tracked_world)) = db tracked_world
  /\ fst (updateDriverAvailability phone false driver_1 tracked_world) = driver_1
  /\ exists v,
       driver_locations.ins_driver_id v = "driver-1"
       /\ driver_locations.ins_is_available v = Some false
       /\ new_events tracked_world
            (snd (updateDriverAvailability phone false driver_1 tracked_world)) =
          [sent (upsert_driver_locations v None);
           console_error "Error updating driver availability:";
           alert "Error" "Failed to update availability status"].
Proof.
  apply (availability_rejected_once_row_exists "driver-1" phone false driver_1
           tracked_world).
  - reflexivity.
  - reflexivity.
  - discriminate.
  - reflexivity.
  - reflexivity.
  - discriminate.
Defined.

(** The driver of [tracked_world] stays available in the table after
    asking to go offline. *)
Example going_offline_is_lost :
  map driver_locations.is_available
    (driver_locations.by_driver "driver-1"
       (tbl_driver_locations
          (db (snd (updateDriverAvailability phone false driver_1 tracked_world))))) =
  [true].
Proof. reflexivity. Qed.

(** The same payload resolved on [driver_id] is absorbed by the
    existing row, which is what an upsert keyed on the driver does. *)
Example upsert_on_driver_id_updates :
  driver_locations.upsert "uuid-0" "2025-07-25T09:00:00Z"
    (availability_values "driver-1" false None "2025-07-25T09:00:00.000Z")
    (Some "driver_id") [driver_1_location] =
  PgOk [driver_locations.mkRow "loc-1" "driver-1" (Some 4550888812%Z)
          (Some (-7356166800)%Z) false "2025-07-25T09:00:00Z"].
Proof. reflexivity. Qed.

End OneRowPerDriver.

(** ** Booking a service *)

Section Booking.

Import ServiceDetailScreen.

Lemma insert_fresh (uuid now : string) (v : service_requests.Insert)
    (tbl : list service_requests.Row) :
  service_requests.ins_id v = None ->
  service_requests.ins_status v = None ->
  mem_string uuid (map service_requests.id tbl) = false ->
  service_requests.insert uuid now v tbl =
  PgOk (tbl ++ [service_requests.new_row uuid now v]).
Proof.
  intros Hid Hst Hfresh. unfold service_requests.insert. simpl.
  rewrite Hid, Hst. simpl. now rewrite Hfresh.
Qed.

(** A booking that gets as far as the request. *)
Lemma handleBookService_run (uid : string) (svc : services.Row) (s : State) (w : World) :
  user s = Some uid ->
  service s = Some svc ->
  is_client (role s) = true ->
  let r := insert_service_requests (booking_values uid svc) in
  let w' := snd (handleBookService s w) in
  db w' = db (snd (rpc (Some uid) r w))
  /\ served w' = S (served w)
  /\ oracle w' = oracle w
  /\ (fst (rpc (Some uid) r w) = None ->
      new_events w w' = [sent r; alert "Success" "Service request sent successfully!"])
  /\ (fst (rpc (Some uid) r w) <> None ->
      new_events w w' = [sent r; console_error "Error booking service:";
                         alert "Error" "Failed to book service"]
      /\ db w' = db w).
Proof.
  intros Hu Hs Hc r w'. subst w'. unfold handleBookService.
  rewrite Hu, Hs, Hc. change (negb true) with false. cbv iota.
  unfold bind. cbv beta. fold r.
  destruct (rpc_world (Some uid) r w) as [Hl [Hsv [Hor Hdb]]].
  destruct (rpc (Some uid) r w) as [[c|] w1]; simpl in *.
  - split; [reflexivity|]. split; [exact Hsv|]. split; [exact Hor|].
    split; [discriminate|]. intros _. split; [|apply Hdb; discriminate].
    apply new_events_app. simpl. now rewrite Hl, <- !app_assoc.
  - split; [reflexivity|]. split; [exact Hsv|]. split; [exact Hor|].
    split; [|intros H; now contradiction H].
    intros _. apply new_events_app. simpl. now rewrite Hl, <- !app_assoc.
Qed.

(** C5, as stated, fails: booking a service that requires delivery
    sends the insert into [service_requests] and nothing else; the
    [deliveries] table stays empty. *)
Lemma booking_creates_no_delivery :
  services.requires_delivery courier_service = true
  /\ new_events empty_world (snd (handleBookService client_1 empty_world)) =
     [sent (insert_service_requests (booking_values "client-1" courier_service));
      alert "Success" "Service request sent successfully!"]
  /\ length (tbl_service_requests (db (snd (handleBookService client_1 empty_world)))) = 1
  /\ tbl_deliveries (db (snd (handleBookService client_1 empty_world))) = [].
Proof. repeat split. Qed.

(** C5, amended. For every booking, of a service that requires
    delivery or not, the handler sends at most one request, the insert
    of the ServiceRequest, and never writes to [deliveries]: no
    Delivery record is created. An accepted booking adds exactly the
    one ServiceRequest row. *)
Theorem booking_writes_only_the_request (s : State) (w : World) :
  let w' := snd (handleBookService s w) in
  tbl_deliveries (db w') = tbl_deliveries (db w)
  /\ tbl_driver_locations (db w') = tbl_driver_locations (db w)
  /\ (filter is_sent (new_events w w') = []
      \/ exists uid svc,
           user s = Some uid /\ service s = Some svc
           /\ filter is_sent (new_events w w') =
              [sent (insert_service_requests (booking_values uid svc))])
  /\ (forall uid svc,
        user s = Some uid -> service s = Some svc -> is_client (role s) = true ->
        reachable (oracle w (served w)) = true ->
        mem_string (gen_random_uuid (oracle w (served w)))
          (map service_requests.id (tbl_service_requests (db w))) = false ->
        tbl_service_requests (db w') =
        tbl_service_requests (db w) ++
        [service_requests.mkRow (gen_random_uuid (oracle w (served w))) uid
           (services.merchant_id svc) (services.id svc) "pending"
           (Some ("Request for: " ++ services.title svc)%string) None None
           (services.price svc)
           (now (oracle w (served w))) (now (oracle w (served w)))]).
Proof.
  intros w'. subst w'.
  destruct (user s) as [uid|] eqn:Hu, (service s) as [svc|] eqn:Hs;
    try (unfold handleBookService; rewrite Hu, ?Hs; simpl;
         repeat split; try (left; unfold new_events; now rewrite skipn_all);
         intros; discriminate).
  destruct (is_client (role s)) eqn:Hc.
  - destruct (handleBookService_run uid svc s w Hu Hs Hc) as [Hdb [_ [_ [Hok Herr]]]].
    remember (insert_service_requests (booking_values uid svc)) as r eqn:Er.
    assert (Hother : tbl_deliveries (db (snd (rpc (Some uid) r w))) = tbl_deliveries (db w)
                     /\ tbl_driver_locations (db (snd (rpc (Some uid) r w)))
                        = tbl_driver_locations (db w)).
    { destruct (rpc_db_cases (Some uid) r w) as [-> | Hex]; [now split|].
      subst r. unfold execute in Hex.
      destruct (service_requests.insert _ _ _ _) as [t|]; [|discriminate].
      injection Hex as Hex. rewrite <- Hex. now split. }
    rewrite Hdb. destruct Hother as [H1 H2].
    split; [exact H1 | split; [exact H2 | split]].
    + right. exists uid, svc. split; [reflexivity | split; [reflexivity|]].
      destruct (fst (rpc (Some uid) r w)) as [c|] eqn:E.
      * destruct Herr as [He _]; [discriminate|]. rewrite He, Er. reflexivity.
      * rewrite (Hok eq_refl), Er. reflexivity.
    + intros uid' svc' Hu' Hs' _ Hr Hfresh.
      injection Hu' as <-. injection Hs' as <-.
      subst r. unfold rpc. rewrite Hr. unfold execute.
      rewrite (insert_fresh _ _ (booking_values uid svc) _ eq_refl eq_refl Hfresh).
      reflexivity.
  - unfold handleBookService. rewrite Hu, Hs, Hc. simpl.
    repeat split; try (left; unfold new_events; simpl;
                       rewrite skipn_app, skipn_all, Nat.sub_diag; reflexivity).
    intros; discriminate.
Qed.

End Booking.

Section Rebooking.

Import ServiceDetailScreen.

(** C9. The booking payload carries no key of its own and nothing is
    checked before the insert: two bookings by the same client of the
    same service, each accepted by the server, leave two rows that
    differ in their generated [id] only (and in the server's
    timestamps). *)
Theorem booking_twice_duplicates
    (uid : string) (svc : services.Row) (s : State) (w : World) :
  user s = Some uid ->
  service s = Some svc ->
  is_client (role s) = true ->
  reachable (oracle w (served w)) = true ->
  reachable (oracle w (S (served w))) = true ->
  mem_string (gen_random_uuid (oracle w (served w)))
    (map service_requests.id (tbl_service_requests (db w))) = false ->
  mem_string (gen_random_uuid (oracle w (S (served w))))
    (map service_requests.id (tbl_service_requests (db w))) = false ->
  gen_random_uuid (oracle w (S (served w))) <> gen_random_uuid (oracle w (served w)) ->
  let w2 := snd (handleBookService s (snd (handleBookService s w))) in
  service_requests.ins_id (booking_values uid svc) = None
  /\ service_requests.keys (booking_values uid svc) =
     ["client_id"; "merchant_id"; "service_id"; "description"; "price_quoted"]
  /\ exists r1 r2,
       tbl_service_requests (db w2) = tbl_service_requests (db w) ++ [r1; r2]
       /\ service_requests.id r1 <> service_requests.id r2
       /\ service_requests.client_id r1 = uid
       /\ service_requests.client_id r2 = uid
       /\ service_requests.service_id r1 = services.id svc
       /\ service_requests.service_id r2 = services.id svc
       /\ service_requests.merchant_id r1 = service_requests.merchant_id r2
       /\ service_requests.description r1 = service_requests.description r2
       /\ service_requests.price_quoted r1 = service_requests.price_quoted r2
       /\ service_requests.status r1 = "pending"
       /\ service_requests.status r2 = "pending".
Proof.
  intros Hu Hs Hc Hr1 Hr2 Hf1 Hf2 Hne w2. subst w2.
  split; [reflexivity | split; [reflexivity|]].
  destruct (handleBookService_run uid svc s w Hu Hs Hc) as [Hdb1 [Hsv1 [Hor1 _]]].
  set (w1 := snd (handleBookService s w)) in *.
  destruct (handleBookService_run uid svc s w1 Hu Hs Hc) as [Hdb2 _].
  set (v := booking_values uid svc) in *.
  assert (H1 : tbl_service_requests (db w1) =
               tbl_service_requests (db w) ++
               [service_requests.new_row (gen_random_uuid (oracle w (served w)))
                  (now (oracle w (served w))) v]).
  { rewrite Hdb1. unfold rpc. rewrite Hr1. unfold execute.
    rewrite (insert_fresh _ _ v _ eq_refl eq_refl Hf1). reflexivity. }
  assert (Hf2' : mem_string (gen_random_uuid (oracle w1 (served w1)))
                   (map service_requests.id (tbl_service_requests (db w1))) = false).
  { rewrite Hor1, Hsv1, H1, map_app, <- (negb_involutive (mem_string _ _)).
    unfold mem_string. rewrite existsb_app. simpl.
    fold (mem_string (gen_random_uuid (oracle w (S (served w))))
            (map service_requests.id (tbl_service_requests (db w)))).
    rewrite Hf2. destruct (String.eqb_spec (gen_random_uuid (oracle w (S (served w))))
                             (gen_random_uuid (oracle w (served w))));
      [contradiction | reflexivity]. }
  exists (service_requests.new_row (gen_random_uuid (oracle w (served w)))
            (now (oracle w (served w))) v),
         (service_requests.new_row (gen_random_uuid (oracle w (S (served w))))
            (now (oracle w (S (served w)))) v).
  split.
  - rewrite Hdb2. unfold rpc. rewrite Hor1, Hsv1, Hr2. unfold execute.
    rewrite <- Hor1, <- Hsv1.
    rewrite (insert_fresh _ _ v _ eq_refl eq_refl Hf2').
    simpl. rewrite H1, <- app_assoc, Hor1, Hsv1. reflexivity.
  - simpl. repeat split; try reflexivity. congruence.
Qed.

Lemma booking_twice_duplicates_witness :
  let w2 := snd (handleBookService client_1 (snd (handleBookService client_1 empty_world))) in
  service_requests.ins_id (booking_values "client-1" courier_service) = None
  /\ service_requests.keys (booking_values "client-1" courier_service) =
     ["client_id"; "merchant_id"; "service_id"; "description"; "price_quoted"]
  /\ exists r1 r2,
       tbl_service_requests (db w2) = tbl_service_requests (db empty_world) ++ [r1; r2]
       /\ service_requests.id r1 <> service_requests.id r2
       /\ service_requests.client_id r1 = "client-1"
       /\ service_requests.client_id r2 = "client-1"
       /\ service_requests.service_id r1 = services.id courier_service
       /\ service_requests.service_id r2 = services.id courier_service
       /\ service_requests.merchant_id r1 = service_requests.merchant_id r2
       /\ service_requests.description r1 = service_requests.description r2
       /\ service_requests.price_quoted r1 = service_requests.price_quoted r2
       /\ service_requests.status r1 = "pending"
       /\ service_requests.status r2 = "pending".
Proof.
  apply (booking_twice_duplicates "client-1" courier_service client_1 empty_world).
  - reflexivity.
  - reflexivity.
  - reflexivity.
  - reflexivity.
  - reflexivity.
  - reflexivity.
  - reflexivity.
  - discriminate.
Defined.

(** The two rows of the sample run. *)
Example booking_twice_rows :
  map service_requests.id
    (tbl_service_requests
       (db (snd (handleBookService client_1
                   (snd (handleBookService client_1 empty_world)))))) =
  ["uuid-0"; "uuid-1"].
Proof. reflexivity. Qed.

End Rebooking.

(** ** The loop of [processQueue] *)

Section QueueLoop.

Import useOfflineQueue.

Variable api : nat -> bool.

Lemma length_store (r : nat) (a : QueuedAction) (objs : list QueuedAction) :
  length (store r a objs) = length objs.
Proof.
  revert r. induction objs as [|x t IH]; intros [|r]; simpl; auto.
Qed.

Lemma nth_error_store_eq (r : nat) (a : QueuedAction) (objs : list QueuedAction) :
  r < length objs -> nth_error (store r a objs) r = Some a.
Proof.
  revert r. induction objs as [|x t IH]; intros [|r] H; simpl in *; try lia; auto.
  apply IH. lia.
Qed.

Lemma nth_error_store_ne (r r' : nat) (a : QueuedAction) (objs : list QueuedAction) :
  r <> r' -> nth_error (store r a objs) r' = nth_error objs r'.
Proof.
  revert r r'. induction objs as [|x t IH]; intros [|r] [|r'] H; simpl; auto;
    try contradiction.
Qed.

Lemma flat_map_ext_In {A B : Type} (f g : A -> list B) (l : list A) :
  (forall a, In a l -> f a = g a) -> flat_map f l = flat_map g l.
Proof.
  induction l as [|x t IH]; intros H; simpl; [reflexivity|].
  rewrite (H x (or_introl eq_refl)), IH; [reflexivity|].
  intros a Ha. apply H. now right.
Qed.

Lemma nth_error_middle (p post : list nat) (r : nat) :
  nth_error ((p ++ [r]) ++ post) (length p) = Some r.
Proof.
  rewrite <- app_assoc, nth_error_app2, Nat.sub_diag; [reflexivity | lia].
Qed.

Lemma splice_middle (p post : list nat) (r : nat) :
  splice (length p) ((p ++ [r]) ++ post) = p ++ post.
Proof.
  unfold splice. rewrite <- app_assoc, firstn_app, firstn_all, Nat.sub_diag.
  rewrite skipn_app, skipn_all2 by lia.
  replace (S (length p) - length p) with 1 by lia. simpl. now rewrite app_nil_r.
Qed.

Lemma settle_length (r : nat) (objs : list QueuedAction) :
  length (settle api r objs) = length objs.
Proof.
  unfold settle. destruct (nth_error objs r) as [a|]; [|reflexivity].
  destruct (fst (executeAction api r a)); [reflexivity | apply length_store].
Qed.

Lemma settle_other (r r' : nat) (objs : list QueuedAction) :
  r <> r' -> nth_error (settle api r objs) r' = nth_error objs r'.
Proof.
  intros H. unfold settle. destruct (nth_error objs r) as [a|]; [|reflexivity].
  destruct (fst (executeAction api r a)); [reflexivity | now apply nth_error_store_ne].
Qed.

(** The loop over an array without repeated references: each
    reference is handled once, from the last to the first; what
    follows the part still to be handled is not touched. *)
Lemma loop_spec (pre post : list nat) (objs : list QueuedAction) (tr : list Event) :
  NoDup pre ->
  loop api (length pre) (objs, pre ++ post, tr) =
  (fold_right (settle api) objs pre,
   filter (kept api objs) pre ++ post,
   tr ++ flat_map (events_of api objs) (rev pre)).
Proof.
  revert post objs tr. induction pre as [|r p IH] using rev_ind; intros post objs tr Hnd.
  - simpl. now rewrite app_nil_r.
  - rewrite length_app, Nat.add_1_r. simpl loop. unfold body.
    rewrite nth_error_middle.
    apply NoDup_remove in Hnd. rewrite app_nil_r in Hnd. destruct Hnd as [Hp Hr].
    rewrite fold_right_app, filter_app, rev_app_distr.
    cbn [fold_right flat_map filter rev app].
    assert (Hk : forall objs', (forall r', r' <> r -> nth_error objs' r' = nth_error objs r') ->
                   filter (kept api objs') p = filter (kept api objs) p
                   /\ flat_map (events_of api objs') (rev p)
                      = flat_map (events_of api objs) (rev p)).
    { intros objs' Hsame. split.
      - apply filter_ext_in. intros r' Hin. unfold kept. rewrite Hsame; [reflexivity|].
        intros ->. contradiction.
      - apply flat_map_ext_In. intros r' Hin. apply in_rev in Hin.
        unfold events_of. rewrite Hsame; [reflexivity|]. intros ->. contradiction. }
    unfold settle at 2, kept at 2, events_of at 1.
    destruct (nth_error objs r) as [a|] eqn:Ea.
    + destruct (executeAction api r a) as [ok evs] eqn:Ex. cbn [fst snd].
      destruct ok; cbn [negb andb].
      * rewrite splice_middle, IH by assumption.
        now rewrite !app_nil_r, <- app_assoc.
      * destruct (Hk (store r (bump a) objs)) as [Hf He].
        { intros r' Hne. apply nth_error_store_ne. congruence. }
        destruct (retryCount a) as [|[|n]].
        -- change ((1 <? MAX_RETRY_COUNT)%nat) with true. cbv iota.
           rewrite <- app_assoc, IH by assumption. rewrite Hf, He.
           now rewrite <- !app_assoc.
        -- change ((2 <? MAX_RETRY_COUNT)%nat) with true. cbv iota.
           rewrite <- app_assoc, IH by assumption. rewrite Hf, He.
           now rewrite <- !app_assoc.
        -- change ((S (S (S n)) <? MAX_RETRY_COUNT)%nat) with false. cbv iota.
           rewrite splice_middle, IH by assumption. rewrite Hf, He.
           now rewrite app_nil_r, <- !app_assoc.
    + rewrite <- app_assoc, IH by assumption. now rewrite <- app_assoc.
Qed.

End QueueLoop.

(** ** What one run does to the store and to the trace *)

Section QueueRun.

Import useOfflineQueue.

Variable api : nat -> bool.

Lemma loop_whole (q : list nat) (objs : list QueuedAction) (tr : list Event) :
  NoDup q ->
  loop api (length q) (objs, q, tr) =
  (fold_right (settle api) objs q, filter (kept api objs) q,
   tr ++ flat_map (events_of api objs) (rev q)).
Proof.
  intros Hnd. pose proof (loop_spec api q [] objs tr Hnd) as H.
  now rewrite !app_nil_r in H.
Qed.

Lemma sweep_length (q : list nat) (objs : list QueuedAction) :
  length (fold_right (settle api) objs q) = length objs.
Proof.
  induction q as [|x t IH]; simpl; [reflexivity|]. now rewrite settle_length.
Qed.

Lemma sweep_other (q : list nat) (objs : list QueuedAction) (r : nat) :
  ~ In r q -> nth_error (fold_right (settle api) objs q) r = nth_error objs r.
Proof.
  induction q as [|x t IH]; simpl; intros H; [reflexivity|].
  rewrite settle_other by tauto. apply IH. tauto.
Qed.

Lemma sweep_at (q : list nat) (objs : list QueuedAction) (r : nat) (a : QueuedAction) :
  NoDup q -> In r q -> nth_error objs r = Some a ->
  nth_error (fold_right (settle api) objs q) r =
  Some (if fst (executeAction api r a) then a else bump a).
Proof.
  induction q as [|x t IH]; simpl; intros Hnd Hin Ha; [contradiction|].
  inversion Hnd as [|? ? Hx Ht]; subst.
  destruct (Nat.eq_dec x r) as [->|Hne].
  - assert (Hr : nth_error (fold_right (settle api) objs t) r = Some a)
      by (rewrite sweep_other; assumption).
    unfold settle at 1. rewrite Hr.
    destruct (fst (executeAction api r a)); [exact Hr|].
    apply nth_error_store_eq. apply nth_error_Some. congruence.
  - rewrite settle_other by assumption. apply IH; try assumption.
    destruct Hin; [contradiction | assumption].
Qed.

Lemma executions_app (r : nat) (tr1 tr2 : list Event) :
  executions r (tr1 ++ tr2) = executions r tr1 + executions r tr2.
Proof. unfold executions. now rewrite filter_app, length_app. Qed.

Lemma executions_events_of (objs : list QueuedAction) (r r' : nat) :
  executions r (events_of api objs r') =
  match nth_error objs r' with
  | Some _ => if (r' =? r)%nat then 1 else 0
  | None => 0
  end.
Proof.
  unfold events_of. destruct (nth_error objs r') as [a|]; [|reflexivity].
  rewrite executions_app. unfold executeAction.
  destruct (mem_string (type a) known_types); cbn [snd fst].
  - unfold executions at 1. cbn [filter is_executing].
    destruct (api r'), (r' =? r)%nat; reflexivity.
  - unfold executions. cbn [filter is_executing]. destruct (r' =? r)%nat; reflexivity.
Qed.

Lemma executions_absent (objs : list QueuedAction) (l : list nat) (r : nat) :
  ~ In r l -> executions r (flat_map (events_of api objs) l) = 0.
Proof.
  induction l as [|x t IH]; simpl; intros H; [reflexivity|].
  rewrite executions_app, executions_events_of, IH by tauto.
  destruct (nth_error objs x); [|reflexivity].
  destruct (Nat.eqb_spec x r); [|reflexivity]. subst. tauto.
Qed.

Lemma executions_once (objs : list QueuedAction) (l : list nat) (r : nat)
    (a : QueuedAction) :
  NoDup l -> In r l -> nth_error objs r = Some a ->
  executions r (flat_map (events_of api objs) l) = 1.
Proof.
  induction l as [|x t IH]; simpl; intros Hnd Hin Ha; [contradiction|].
  inversion Hnd as [|? ? Hx Ht]; subst.
  rewrite executions_app, executions_events_of.
  destruct (Nat.eq_dec x r) as [->|Hne].
  - rewrite Ha, Nat.eqb_refl, executions_absent by assumption. reflexivity.
  - destruct Hin as [|Hin]; [contradiction|].
    rewrite (IH Ht Hin Ha). destruct (nth_error objs x); [|reflexivity].
    destruct (Nat.eqb_spec x r); [contradiction | reflexivity].
Qed.

(** Nothing in a run is shown to the user. *)
Lemma events_of_quiet (objs : list QueuedAction) (l : list nat) :
  filter is_alert (flat_map (events_of api objs) l) = [].
Proof.
  induction l as [|x t IH]; simpl; [reflexivity|].
  rewrite filter_app, IH, app_nil_r. unfold events_of.
  destruct (nth_error objs x) as [a|]; [|reflexivity].
  rewrite filter_app. unfold executeAction.
  destruct (mem_string (type a) known_types); cbn [snd fst].
  - destruct (api x); reflexivity.
  - reflexivity.
Qed.

End QueueRun.

(** ** Steps of the hook *)

Section QueueSteps.

Import useOfflineQueue.








(** The predicates of the invariant look at the store and the trace
    only. *)
Lemma rested_same (h h' : Hook) (r : nat) :
  objects h' = objects h -> trace h' = trace h -> rested h r -> rested h' r.
Proof. unfold rested. intros -> ->. auto. Qed.

Lemma in_call_same (h h' : Hook) (r : nat) :
  objects h' = objects h -> trace h' = trace h -> in_call h r -> in_call h' r.
Proof. unfold in_call. intros -> ->. auto. Qed.

Lemma Bounded_same (h h' : Hook) :
  objects h' = objects h -> trace h' = trace h -> Bounded h -> Bounded h'.
Proof. unfold Bounded. intros -> ->. auto. Qed.







End QueueSteps.

(** ** The hook used one call at a time *)

Section QueueCalm.

Import useOfflineQueue.














End QueueCalm.

(** ** The retry bound of the offline queue *)

Section RetryBound.

Import useOfflineQueue.






(** With calls that reject, two runs that overlap, the effect's and
    the one [addToQueue] starts from its own render, both call a
    message that has failed twice before either counts the failure:
    it is executed four times, every write succeeding. And an
    [addToQueue] called while the third failing run is writing the
    queue puts the dropped message back. *)
Example overlapping_runs_execute_four_times :
  executed_after overlapping_runs 0 = Some 4
  /\ forallb written_through overlapping_runs = true
  /\ option_map (fun m => tasks m) (play overlapping_runs (mount None true)) =
     Some [at_executeAction [0; 1] 0; at_executeAction [0] 0]
  /\ executed_after add_during_a_run 0 = Some 4
  /\ forallb written_through add_during_a_run = true.
Proof. repeat split. Qed.

(** The three failing attempts: the message is executed three times
    and is then gone from the queue and from storage, without an
    alert. *)
Example third_failure_drops_the_action :
  option_map (fun m => (executions 0 (trace (hook m)), queue (hook m),
                        storage (hook m), filter is_alert (trace (hook m)),
                        map retryCount (objects (hook m))))
    (play three_failures (mount None true)) =
  Some (3, [], Some [], [], [3]).
Proof. reflexivity. Qed.

End RetryBound.

(** ** The queue with the calls as the source has them *)

Section QueueAsWritten.

Import useOfflineQueue.










End QueueAsWritten.

(** ** Retries *)

Section Retries.

Import useOfflineQueue.



(** An accept that cannot reach the server: one request, the error
    logged, the alert shown, nothing sent again. *)
Example failed_accept_is_sent_once :
  new_events unreachable_world
    (perform (accept_delivery "d-1" driver_2) unreachable_world) =
  [sent (update_deliveries (DeliveriesScreen.accept_values "driver-2")
           [deliveries.eq "id" "d-1"]);
   console_error "Error accepting delivery:";
   alert "Error" "Failed to accept delivery"].
Proof. reflexivity. Qed.

(** With the source as it stands a queued message is executed once,
    when the network comes back, and never again. *)
Example queued_action_is_executed_once :
  forallb as_written (queued_offline ++ [network true; commit] ++ one_run true true
                      ++ reconnect ++ reconnect) = true
  /\ option_map (fun m => (trace (hook m), queue (hook m), storage (hook m)))
       (play (queued_offline ++ [network true; commit] ++ one_run true true
              ++ reconnect ++ reconnect) (mount None true)) =
     Some ([executing 0], [], Some []).
Proof. split; reflexivity. Qed.

End Retries.

Section Samples.

Import DeliveriesScreen.

(** The assigned driver marks the delivery of the sample data
    delivered. *)
Lemma status_update_payload_witness :
  deliveries.find "d-2"
    (tbl_deliveries
       (db (snd (updateDeliveryStatus phone "d-2" "delivered" driver_1 sample_world)))) =
  Some (deliveries.mkRow "d-2" "sr-2" (Some "driver-1") "3 Elm Rd" "9 Ash Ct" "delivered"
          None (Some "2025-07-25T09:00:00.000Z") None None None
          "2025-07-24T21:00:00Z" "2025-07-25T09:00:00Z")
  /\ deliveries.keys (updateData "delivered" (date_iso phone)) =
     ["status"; "actual_delivery_time"].
Proof.
  destruct (status_update_payload phone "d-2" "delivered" driver_1 sample_world)
    as (_ & _ & _ & _ & Hkeys & Hrow).
  destruct (Hrow "driver-1" claimed_delivery eq_refl eq_refl eq_refl eq_refl eq_refl
              eq_refl) as [Hfind _].
  split; [exact Hfind | exact Hkeys].
Defined.


Lemma booking_writes_only_the_request_witness :
  let w' := snd (ServiceDetailScreen.handleBookService client_1 empty_world) in
  tbl_deliveries (db w') = tbl_deliveries (db empty_world)
  /\ tbl_driver_locations (db w') = tbl_driver_locations (db empty_world)
  /\ (filter is_sent (new_events empty_world w') = []
      \/ exists uid svc,
           ServiceDetailScreen.user client_1 = Some uid
           /\ ServiceDetailScreen.service client_1 = Some svc
           /\ filter is_sent (new_events empty_world w') =
              [sent (insert_service_requests
                       (ServiceDetailScreen.booking_values uid svc))])
  /\ (forall uid svc,
        ServiceDetailScreen.user client_1 = Some uid ->
        ServiceDetailScreen.service client_1 = Some svc ->
        ServiceDetailScreen.is_client (ServiceDetailScreen.role client_1) = true ->
        reachable (oracle empty_world (served empty_world)) = true ->
        mem_string (gen_random_uuid (oracle empty_world (served empty_world)))
          (map service_requests.id (tbl_service_requests (db empty_world))) = false ->
        tbl_service_requests (db w') =
        tbl_service_requests (db empty_world) ++
        [service_requests.mkRow
           (gen_random_uuid (oracle empty_world (served empty_world))) uid
           (services.merchant_id svc) (services.id svc) "pending"
           (Some ("Request for: " ++ services.title svc)%string) None None
           (services.price svc)
           (now (oracle empty_world (served empty_world)))
           (now (oracle empty_world (served empty_world)))]).
Proof.
  exact (booking_writes_only_the_request client_1 empty_world).
Defined.

End Samples.

(** * Further properties of the screens *)

(** ** The two reads of the deliveries screen *)

Section Reads.

Import DeliveriesScreen.

Lemma place_In (r x : deliveries.Row) (l : list deliveries.Row) :
  In x (place r l) <-> x = r \/ In x l.
Proof.
  induction l as [|y t IH]; simpl.
  - intuition.
  - destruct (String.leb _ _); simpl; [intuition|]. rewrite IH. intuition.
Qed.

Lemma newest_first_In (x : deliveries.Row) (l : list deliveries.Row) :
  In x (newest_first l) <-> In x l.
Proof.
  unfold newest_first. induction l as [|y t IH]; simpl; [tauto|].
  rewrite place_In, IH. intuition.
Qed.

Lemma place_sorted (r : deliveries.Row) (l : list deliveries.Row) :
  Sorted not_older l -> Sorted not_older (place r l).
Proof.
  induction l as [|y t IH]; intros Hs; simpl.
  - repeat constructor.
  - destruct (String.leb (deliveries.created_at y) (deliveries.created_at r)) eqn:E.
    + constructor; [exact Hs | constructor; exact E].
    + inversion Hs as [|? ? Ht Hhd]; subst. constructor; [now apply IH|].
      assert (Hry : not_older y r).
      { unfold not_older. destruct (String.leb_total (deliveries.created_at y)
                                      (deliveries.created_at r)); congruence. }
      destruct t as [|z t']; simpl.
      * constructor. exact Hry.
      * destruct (String.leb (deliveries.created_at z) (deliveries.created_at r));
          constructor; [exact Hry | now inversion Hhd].
Qed.

Lemma newest_first_sorted (l : list deliveries.Row) : Sorted not_older (newest_first l).
Proof.
  unfold newest_first. induction l as [|y t IH]; simpl; [constructor|].
  now apply place_sorted.
Qed.

Lemma mine_or_unassigned_spec (uid : string) (r : deliveries.Row) :
  mine_or_unassigned uid r = true <->
  deliveries.driver_id r = Some uid \/ deliveries.driver_id r = None.
Proof.
  unfold mine_or_unassigned. simpl. destruct (deliveries.driver_id r) as [d|]; simpl.
  - rewrite orb_false_r, String.eqb_eq. split; [intros ->; now left|].
    intros [H|H]; [now injection H | discriminate].
  - split; [now right | reflexivity].
Qed.

Lemma viewable_spec (uid : string) (requests : list service_requests.Row)
    (r : deliveries.Row) :
  viewable uid requests r = true <->
  deliveries.driver_id r = Some uid
  \/ exists q, In q requests
               /\ service_requests.id q = deliveries.service_request_id r
               /\ (service_requests.client_id q = uid
                   \/ service_requests.merchant_id q = uid).
Proof.
  unfold viewable, deliveries.assigned_to, party_to.
  rewrite orb_true_iff, existsb_exists. split.
  - intros [H|[q [Hin H]]].
    + left. destruct (deliveries.driver_id r) as [d|]; [|discriminate].
      apply String.eqb_eq in H. now subst.
    + right. exists q. apply andb_true_iff in H. destruct H as [Hid Hp].
      apply String.eqb_eq in Hid. apply orb_true_iff in Hp.
      rewrite !String.eqb_eq in Hp. auto.
  - intros [H|[q [Hin [Hid Hp]]]].
    + left. rewrite H. apply String.eqb_refl.
    + right. exists q. split; [exact Hin|].
      rewrite andb_true_iff, orb_true_iff, !String.eqb_eq. auto.
Qed.

(** X1. A fetch that reaches the server lists exactly the stored
    deliveries that are assigned to the signed-in driver, and those
    assigned to nobody that the read policy of the table shows to the
    driver, which it does only when the driver is the client or the
    merchant of the delivery's service request; never another
    driver's. The list is ordered, the most recently created first. A
    fetch that fails keeps the list it had and logs the error. Either
    way the loading flag is cleared, nothing is written and no alert
    is shown. *)
Theorem fetchDeliveries_lists (uid : string) (s : State) (w : World) :
  user s = Some uid ->
  let s' := fst (fetchDeliveries s w) in
  let w' := snd (fetchDeliveries s w) in
  db w' = db w
  /\ loading s' = false
  /\ filter is_alert (new_events w w') = []
  /\ (reachable (oracle w (served w)) = true ->
      (forall r, In r (deliveries s') <->
                 In r (tbl_deliveries (db w))
                 /\ (deliveries.driver_id r = Some uid
                     \/ (deliveries.driver_id r = None
                         /\ exists q,
                              In q (tbl_service_requests (db w))
                              /\ service_requests.id q = deliveries.service_request_id r
                              /\ (service_requests.client_id q = uid
                                  \/ service_requests.merchant_id q = uid))))
      /\ Sorted not_older (deliveries s')
      /\ new_events w w' = [sent (select_deliveries_for uid)])
  /\ (reachable (oracle w (served w)) = false ->
      deliveries s' = deliveries s
      /\ new_events w w' = [sent (select_deliveries_for uid);
                            console_error "Error fetching deliveries:"]).
Proof.
  intros Hu. unfold fetchDeliveries. rewrite Hu. unfold bind, query_deliveries.
  destruct (reachable (oracle w (served w))); simpl.
  - split; [reflexivity|]. split; [reflexivity|]. split.
    { unfold new_events. simpl. now rewrite skipn_app, skipn_all, Nat.sub_diag. }
    split; [|discriminate]. intros _. split; [|split].
    + intros r.
      rewrite newest_first_In, !filter_In, mine_or_unassigned_spec, viewable_spec.
      split.
      * intros [[Hin Hv] [Hm|Hn]]; (split; [exact Hin|]); [now left|].
        destruct Hv as [Hv|Hv]; [now left | right; now split].
      * intros [Hin [Hm|[Hn Hq]]]; (split; [split; [exact Hin|]|]); auto.
    + apply newest_first_sorted.
    + unfold new_events. simpl. now rewrite skipn_app, skipn_all, Nat.sub_diag.
  - split; [reflexivity|]. split; [reflexivity|]. split.
    { unfold new_events. simpl.
      now rewrite <- app_assoc, skipn_app, skipn_all, Nat.sub_diag. }
    split; [discriminate|]. intros _. split; [reflexivity|].
    unfold new_events. simpl.
    now rewrite <- app_assoc, skipn_app, skipn_all, Nat.sub_diag.
Qed.

Lemma fetchDeliveries_lists_witness :
  user driver_1 = Some "driver-1"
  /\ deliveries (fst (fetchDeliveries driver_1 busy_world)) = [claimed_delivery; carried_delivery]
  /\ let s' := fst (fetchDeliveries driver_1 busy_world) in
     let w' := snd (fetchDeliveries driver_1 busy_world) in
     db w' = db busy_world
     /\ loading s' = false
     /\ filter is_alert (new_events busy_world w') = []
     /\ (reachable (oracle busy_world (served busy_world)) = true ->
         (forall r, In r (deliveries s') <->
                    In r (tbl_deliveries (db busy_world))
                    /\ (deliveries.driver_id r = Some "driver-1"
                        \/ (deliveries.driver_id r = None
                            /\ exists q,
                                 In q (tbl_service_requests (db busy_world))
                                 /\ service_requests.id q = deliveries.service_request_id r
                                 /\ (service_requests.client_id q = "driver-1"
                                     \/ service_requests.merchant_id q = "driver-1"))))
         /\ Sorted not_older (deliveries s')
         /\ new_events busy_world w' = [sent (select_deliveries_for "driver-1")])
     /\ (reachable (oracle busy_world (served busy_world)) = false ->
         deliveries s' = deliveries driver_1
         /\ new_events busy_world w' = [sent (select_deliveries_for "driver-1");
                                        console_error "Error fetching deliveries:"]).
Proof.
  split; [reflexivity|]. split; [reflexivity|].
  apply (fetchDeliveries_lists "driver-1" driver_1 busy_world). reflexivity.
Defined.

(** X2. [fetchDriverStatus] sets the availability flag to the stored
    one when the driver has exactly one row; with no row, or more than
    one, the "not found" error is swallowed and the flag becomes false;
    when the request fails the flag is kept and the error is logged. It
    never writes and never alerts. *)
Theorem fetchDriverStatus_reads (uid : string) (s : State) (w : World) :
  user s = Some uid ->
  let s' := fst (fetchDriverStatus s w) in
  let w' := snd (fetchDriverStatus s w) in
  let rows := driver_locations.by_driver uid (tbl_driver_locations (db w)) in
  db w' = db w
  /\ filter is_alert (new_events w w') = []
  /\ (reachable (oracle w (served w)) = true ->
      (forall r, rows = [r] -> isAvailable s' = driver_locations.is_available r)
      /\ (length rows <> 1 -> isAvailable s' = false)
      /\ new_events w w' = [sent (select_driver_status uid)])
  /\ (reachable (oracle w (served w)) = false ->
      s' = s
      /\ new_events w w' = [sent (select_driver_status uid);
                            console_error "Error fetching driver status:"]).
Proof.
  intros Hu. unfold fetchDriverStatus. rewrite Hu. unfold bind, query_driver_status.
  destruct (reachable (oracle w (served w))).
  - destruct (driver_locations.by_driver uid (tbl_driver_locations (db w)))
      as [|r [|r' t]] eqn:E; simpl;
      (split; [reflexivity|]; split;
       [unfold new_events; simpl; now rewrite skipn_app, skipn_all, Nat.sub_diag|];
       split; [|discriminate]; intros _; split; [|split];
       [ intros r0 H; try discriminate
       | intros H; try reflexivity
       | unfold new_events; simpl; now rewrite skipn_app, skipn_all, Nat.sub_diag ]).
    + injection H as <-. reflexivity.
    + now contradiction H.
  - simpl. split; [reflexivity|]. split.
    { unfold new_events. simpl.
      now rewrite <- app_assoc, skipn_app, skipn_all, Nat.sub_diag. }
    split; [discriminate|]. intros _. split; [reflexivity|].
    unfold new_events. simpl.
    now rewrite <- app_assoc, skipn_app, skipn_all, Nat.sub_diag.
Qed.

Lemma fetchDriverStatus_reads_witness :
  let s' := fst (fetchDriverStatus driver_2 tracked_world) in
  let w' := snd (fetchDriverStatus driver_2 tracked_world) in
  let rows := driver_locations.by_driver "driver-2"
                (tbl_driver_locations (db tracked_world)) in
  db w' = db tracked_world
  /\ filter is_alert (new_events tracked_world w') = []
  /\ (reachable (oracle tracked_world (served tracked_world)) = true ->
      (forall r, rows = [r] -> isAvailable s' = driver_locations.is_available r)
      /\ (length rows <> 1 -> isAvailable s' = false)
      /\ new_events tracked_world w' = [sent (select_driver_status "driver-2")])
  /\ (reachable (oracle tracked_world (served tracked_world)) = false ->
      s' = driver_2
      /\ new_events tracked_world w' = [sent (select_driver_status "driver-2");
                                        console_error "Error fetching driver status:"]).
Proof.
  apply (fetchDriverStatus_reads "driver-2" driver_2 tracked_world). reflexivity.
Defined.

End Reads.

(** ** Guards, edge cases and the life cycle on the deliveries screen *)

Section Lifecycle.

Import DeliveriesScreen.

Ltac events_added :=
  unfold new_events; simpl;
  rewrite <- ?app_assoc, ?skipn_app, ?skipn_all, ?Nat.sub_diag; reflexivity.

(** X3. An operation stopped by its guard (nobody signed in, no
    location permission, a position that cannot be sampled, a viewer
    who is not a client, a service not loaded) sends no request at all
    and leaves the database as it was. *)
Theorem guarded_operation_sends_nothing (o : Operation) (w : World) :
  write_of o = None ->
  filter is_sent (new_events w (perform o w)) = []
  /\ db (perform o w) = db w.
Proof.
  intros Hw. destruct o as [k s | dev k st s | dev available s | s]; simpl in Hw |- *.
  - unfold acceptDelivery. destruct (user s); [discriminate|].
    split; [events_added | reflexivity].
  - discriminate.
  - unfold updateDriverAvailability, availability_failed.
    destruct (user s) as [uid|]; [|split; [events_added | reflexivity]].
    destruct (locationPermission s); [|split; [events_added | reflexivity]].
    destruct (if available then option_map Some (position dev) else Some None);
      [discriminate|].
    split; [events_added | reflexivity].
  - unfold ServiceDetailScreen.handleBookService.
    destruct (ServiceDetailScreen.user s) as [uid|];
      [|split; [events_added | reflexivity]].
    destruct (ServiceDetailScreen.service s) as [svc|];
      [|split; [events_added | reflexivity]].
    destruct (ServiceDetailScreen.is_client (ServiceDetailScreen.role s));
      [discriminate|].
    split; [events_added | reflexivity].
Qed.

Lemma guarded_operation_sends_nothing_witness :
  filter is_sent
    (new_events sample_world (perform (set_availability phone true signed_out) sample_world))
  = []
  /\ db (perform (set_availability phone true signed_out) sample_world) = db sample_world.
Proof.
  apply (guarded_operation_sends_nothing (set_availability phone true signed_out)
           sample_world).
  reflexivity.
Defined.

(** X5. A delivery card never carries more than one button. *)
Theorem one_button_per_card (s : State) (item : deliveries.Row) :
  length (renderDeliveryItem s item) <= 1.
Proof.
  unfold renderDeliveryItem, canAccept, shown.
  destruct (String.eqb_spec (deliveries.status item) "pending") as [->|_];
    [|destruct (String.eqb_spec (deliveries.status item) "assigned") as [->|_];
      [|destruct (String.eqb_spec (deliveries.status item) "picked_up") as [->|_]]];
    simpl;
    destruct (falsy (deliveries.driver_id item)), (isAvailable s), (isMyDelivery s item);
    simpl; try lia;
    destruct (String.eqb (deliveries.status item) "in_transit"); simpl; lia.
Qed.






(** The card of the pending delivery after driver-2 has pressed
    Accept: the stored row is unchanged and the button is still there. *)
Example accept_button_stays :
  renderDeliveryItem (fst (onPress phone sample_delivery Accept driver_2 sample_world))
    sample_delivery = [Accept]
  /\ deliveries.find "d-1"
       (tbl_deliveries
          (db (snd (onPress phone sample_delivery Accept driver_2 sample_world)))) =
     Some sample_delivery.
Proof. split; reflexivity. Qed.

End Lifecycle.

(** ** Writes that match nothing or that the table refuses *)

Section EdgeWrites.

Import DeliveriesScreen.

Lemma update_rejected (uid : option string) (now k st : string) (u : deliveries.Update)
    (tbl : list deliveries.Row) (row : deliveries.Row) :
  deliveries.find k tbl = Some row ->
  deliveries.assigned_to uid row = true ->
  deliveries.set_status u = Some st ->
  mem_string st deliveries.statuses = false ->
  exists c, deliveries.update uid now u [deliveries.eq "id" k] tbl = PgError c.
Proof.
  intros Hfind Hmine Hs Hbad. unfold deliveries.update.
  assert (Hall : forall l, l <> [] ->
                   exists c, deliveries.first_refusal uid
                               (map (deliveries.set_row now u) l) = Some c).
  { intros [|r t] Hl; [contradiction|]. simpl.
    unfold deliveries.refused.
    destruct (negb (deliveries.assigned_to uid (deliveries.set_row now u r)));
      [eauto|].
    assert (Hst : deliveries.status_check (deliveries.set_row now u r) = false)
      by (unfold deliveries.status_check; simpl; now rewrite Hs).
    rewrite Hst. simpl. eauto. }
  destruct (Hall (filter (deliveries.target uid [deliveries.eq "id" k]) tbl)) as [c Hc].
  - intros Hnil.
    assert (Hin : In row (filter (deliveries.target uid [deliveries.eq "id" k]) tbl)).
    { apply filter_In. split; [exact (find_In _ _ _ Hfind)|].
      rewrite target_id, (find_id _ _ _ Hfind), String.eqb_refl. exact Hmine. }
    rewrite Hnil in Hin. exact Hin.
  - rewrite Hc. now exists c.
Qed.

(** X7. Neither handler looks at how many rows its update matched. An
    accept of a delivery id that is not in the table changes nothing and
    still tells the driver "Delivery accepted!"; a status update of such
    an id changes nothing and shows no alert at all. *)
Theorem write_to_missing_delivery (k uid : string) (dev : Device) (st : string)
    (s : State) (w : World) :
  user s = Some uid ->
  deliveries.find k (tbl_deliveries (db w)) = None ->
  distinct (map deliveries.id (tbl_deliveries (db w))) = true ->
  mem_string st deliveries.statuses = true ->
  reachable (oracle w (served w)) = true ->
  (db (snd (acceptDelivery k s w)) = db w
   /\ filter is_alert (new_events w (snd (acceptDelivery k s w))) =
      [alert "Success" "Delivery accepted!"])
  /\ (db (snd (updateDeliveryStatus dev k st s w)) = db w
      /\ filter is_alert (new_events w (snd (updateDeliveryStatus dev k st s w))) = []).
Proof.
  intros Hu Hnone Hpk Hst Hr. split; split.
  - rewrite (acceptDelivery_db k uid s w Hu Hr Hpk), map_by_id_absent by assumption.
    now destruct (db w).
  - destruct (acceptDelivery_trace k uid s w Hu) as [evs [He [_ [_ Hok]]]].
    rewrite He. simpl. apply Hok.
    rewrite (rpc_update_by_id (Some uid) (accept_values uid) k w eq_refl
               (accept_values_allowed uid) (fun r _ => accept_values_mine uid _ r) Hr Hpk).
    reflexivity.
  - rewrite (updateDeliveryStatus_db dev k st s w Hst Hr Hpk), map_by_id_absent
      by assumption.
    now destruct (db w).
  - destruct (updateDeliveryStatus_trace dev k st s w) as [evs [He [_ [_ Hok]]]].
    rewrite He. simpl. apply Hok.
    rewrite (rpc_update_by_id (user s) (updateData st (date_iso dev)) k w eq_refl
               (ex_intro _ st (conj eq_refl Hst)) (fun r H => H) Hr Hpk).
    reflexivity.
Qed.

Lemma write_to_missing_delivery_witness :
  (db (snd (acceptDelivery "d-404" driver_2 sample_world)) = db sample_world
   /\ filter is_alert (new_events sample_world
                         (snd (acceptDelivery "d-404" driver_2 sample_world))) =
      [alert "Success" "Delivery accepted!"])
  /\ (db (snd (updateDeliveryStatus phone "d-404" "delivered" driver_2 sample_world))
      = db sample_world
      /\ filter is_alert
           (new_events sample_world
              (snd (updateDeliveryStatus phone "d-404" "delivered" driver_2 sample_world)))
         = []).
Proof.
  apply (write_to_missing_delivery "d-404" "driver-2" phone "delivered" driver_2
           sample_world); reflexivity.
Defined.

(** X8. A status outside the six of the table's CHECK is refused by
    the server when the delivery is the signed-in driver's own: nothing
    is stored and the handler shows its error alert. *)
Theorem unknown_status_is_refused (dev : Device) (k st uid : string)
    (row : deliveries.Row) (s : State) (w : World) :
  user s = Some uid ->
  deliveries.driver_id row = Some uid ->
  mem_string st deliveries.statuses = false ->
  deliveries.find k (tbl_deliveries (db w)) = Some row ->
  reachable (oracle w (served w)) = true ->
  db (snd (updateDeliveryStatus dev k st s w)) = db w
  /\ new_events w (snd (updateDeliveryStatus dev k st s w)) =
     [sent (update_deliveries (updateData st (date_iso dev)) [deliveries.eq "id" k]);
      console_error "Error updating delivery status:";
      alert "Error" "Failed to update delivery status"].
Proof.
  intros Hu Hd Hbad Hfind Hr.
  destruct (updateDeliveryStatus_trace dev k st s w) as [evs [He [_ [Herr _]]]].
  assert (Hmine : deliveries.assigned_to (user s) row = true)
    by (unfold deliveries.assigned_to; rewrite Hd, Hu; apply String.eqb_refl).
  assert (Hfail : fst (rpc (user s)
                         (update_deliveries (updateData st (date_iso dev))
                            [deliveries.eq "id" k]) w) <> None).
  { unfold rpc. rewrite Hr. unfold execute.
    destruct (update_rejected (user s) (now (oracle w (served w))) k st
                (updateData st (date_iso dev)) _ row Hfind Hmine eq_refl Hbad)
      as [c ->].
    discriminate. }
  destruct (Herr Hfail) as [-> Hdb]. split; [exact Hdb | exact He].
Qed.

Lemma unknown_status_is_refused_witness :
  db (snd (updateDeliveryStatus phone "d-2" "lost" driver_1 sample_world)) = db sample_world
  /\ new_events sample_world
       (snd (updateDeliveryStatus phone "d-2" "lost" driver_1 sample_world)) =
     [sent (update_deliveries (updateData "lost" (date_iso phone))
              [deliveries.eq "id" "d-2"]);
      console_error "Error updating delivery status:";
      alert "Error" "Failed to update delivery status"].
Proof.
  apply (unknown_status_is_refused phone "d-2" "lost" "driver-1" claimed_delivery driver_1
           sample_world); reflexivity.
Defined.

(** The same status asked by a driver for a delivery that is not
    theirs is not refused: the update reaches no row and the handler
    reports nothing. *)
Example unknown_status_on_hidden_row :
  new_events sample_world
    (snd (updateDeliveryStatus phone "d-2" "lost" driver_2 sample_world)) =
  [sent (update_deliveries (updateData "lost" (date_iso phone)) [deliveries.eq "id" "d-2"]);
   sent (select_deliveries_for "driver-2")]
  /\ db (snd (updateDeliveryStatus phone "d-2" "lost" driver_2 sample_world)) =
     db sample_world.
Proof. split; reflexivity. Qed.

(** X4. A driver's first toggle is read back: once the row has been
    stored, the local flag is the requested value, and
    [fetchDriverStatus], on any screen state of that driver, sets the
    flag to the same value. *)
Theorem availability_is_read_back (uid : string) (dev : Device) (available : bool)
    (s s0 : State) (w : World) :
  user s = Some uid ->
  locationPermission s = true ->
  (available = true -> position dev <> None) ->
  user s0 = Some uid ->
  reachable (oracle w (served w)) = true ->
  reachable (oracle w (S (served w))) = true ->
  driver_locations.keys_ok (tbl_driver_locations (db w)) = true ->
  existsb (driver_locations.has_id (gen_random_uuid (oracle w (served w))))
    (tbl_driver_locations (db w)) = false ->
  driver_locations.by_driver uid (tbl_driver_locations (db w)) = [] ->
  isAvailable (fst (updateDriverAvailability dev available s w)) = available
  /\ isAvailable
       (fst (fetchDriverStatus s0 (snd (updateDriverAvailability dev available s w))))
     = available.
Proof.
  intros Hu Hp Hpos Hu0 Hr Hr' Hk Hfresh Hnone.
  assert (Hloc : exists location,
             (if available then option_map Some (position dev) else Some None)
             = Some location).
  { destruct available; [|now exists None].
    destruct (position dev) as [p|]; [now exists (Some p)|]. now contradiction Hpos. }
  destruct Hloc as [location Hloc].
  assert (Hrun : updateDriverAvailability dev available s w =
                 (setIsAvailable available s,
                  mkWorld
                    (mkDb (tbl_deliveries (db w))
                       (tbl_driver_locations (db w) ++
                        [driver_locations.new_row (gen_random_uuid (oracle w (served w)))
                           (now (oracle w (served w)))
                           (availability_values uid available location (date_iso dev))])
                       (tbl_service_requests (db w)))
                    (log w ++ [sent (upsert_driver_locations
                                       (availability_values uid available location
                                          (date_iso dev)) None)])
                    (S (served w)) (oracle w))).
  { unfold updateDriverAvailability. rewrite Hu, Hp, Hloc. unfold bind, rpc.
    rewrite Hr. unfold execute.
    rewrite (upsert_first_row _ _ (availability_values uid available location
                                     (date_iso dev)) _ eq_refl Hk Hfresh Hnone).
    reflexivity. }
  rewrite Hrun. split; [reflexivity|].
  unfold fetchDriverStatus. rewrite Hu0. unfold bind, query_driver_status.
  cbn [oracle served db tbl_driver_locations snd]. rewrite Hr'.
  unfold driver_locations.by_driver in *. rewrite filter_app, Hnone.
  cbn [filter app]. unfold driver_locations.has_driver at 1.
  cbn [driver_locations.driver_id driver_locations.new_row availability_values
       driver_locations.ins_driver_id].
  rewrite String.eqb_refl. reflexivity.
Qed.

Lemma availability_is_read_back_witness :
  isAvailable (fst (updateDriverAvailability phone true driver_2 sample_world)) = true
  /\ isAvailable
       (fst (fetchDriverStatus fresh_driver_2
               (snd (updateDriverAvailability phone true driver_2 sample_world))))
     = true.
Proof.
  apply (availability_is_read_back "driver-2" phone true driver_2 fresh_driver_2
           sample_world); try reflexivity.
  discriminate.
Defined.

End EdgeWrites.

(** ** Starting a conversation with the merchant *)

Section Contact.

Import ContactMerchant.

Lemma between_new (uuid now client merchant : string) :
  conversations.between client merchant
    (conversations.mkRow uuid client merchant None now now) = true.
Proof. unfold conversations.between. simpl. now rewrite !String.eqb_refl. Qed.

(** X9. With at most one conversation between the client and the
    merchant, and requests that reach the server, the Message button
    finds or creates: after the first press there is exactly one
    conversation of the pair and the client is taken to it; a second
    press creates nothing and leads to the same conversation. *)
Theorem contact_finds_or_creates_once
    (uid : string) (svc : services.Row) (s : ServiceDetailScreen.State)
    (tbl : list conversations.Row) (lookup create lookup2 create2 : Server) :
  ServiceDetailScreen.user s = Some uid ->
  ServiceDetailScreen.service s = Some svc ->
  reachable lookup = true ->
  reachable create = true ->
  reachable lookup2 = true ->
  mem_string (gen_random_uuid create) (map conversations.id tbl) = false ->
  length (filter (conversations.between uid (services.merchant_id svc)) tbl) <= 1 ->
  let first := handleContactMerchant lookup create s tbl in
  let second := handleContactMerchant lookup2 create2 s (fst first) in
  (exists r,
      filter (conversations.between uid (services.merchant_id svc)) (fst first) = [r]
      /\ snd first = [pushed (thread (conversations.id r))])
  /\ second = first.
Proof.
  intros Hu Hs Hl Hc Hl2 Hfresh Hone first second. subst second first.
  unfold handleContactMerchant. rewrite Hu, Hs, Hl, Hl2, Hc.
  unfold conversations.single.
  destruct (filter (conversations.between uid (services.merchant_id svc)) tbl)
    as [|r [|r' t]] eqn:E.
  - unfold conversations.insert. rewrite Hfresh. cbn [fst snd].
    rewrite filter_app, E. cbn [filter app]. rewrite between_new.
    split; [|reflexivity]. eexists. split; reflexivity.
  - cbn [fst snd]. rewrite E. split; [|reflexivity]. exists r. split; reflexivity.
  - simpl in Hone. lia.
Qed.

Lemma contact_finds_or_creates_once_witness :
  let first := handleContactMerchant (online 0) (online 1) client_1 [] in
  let second := handleContactMerchant (online 2) (online 3) client_1 (fst first) in
  (exists r,
      filter (conversations.between "client-1" (services.merchant_id courier_service))
        (fst first) = [r]
      /\ snd first = [pushed (thread (conversations.id r))])
  /\ second = first.
Proof.
  apply (contact_finds_or_creates_once "client-1" courier_service client_1 []
           (online 0) (online 1) (online 2) (online 3)); try reflexivity.
  simpl. lia.
Defined.

(** X10. The lookup's error is never inspected. When it does not
    return exactly one row, because the request failed or because the
    pair already has several conversations, the handler creates one
    more, even though a conversation of the pair may exist. *)
Theorem contact_after_blind_lookup_creates_another
    (uid : string) (svc : services.Row) (s : ServiceDetailScreen.State)
    (tbl : list conversations.Row) (lookup create : Server) :
  ServiceDetailScreen.user s = Some uid ->
  ServiceDetailScreen.service s = Some svc ->
  reachable create = true ->
  mem_string (gen_random_uuid create) (map conversations.id tbl) = false ->
  reachable lookup = false
  \/ length (filter (conversations.between uid (services.merchant_id svc)) tbl) <> 1 ->
  handleContactMerchant lookup create s tbl =
  (tbl ++ [conversations.mkRow (gen_random_uuid create) uid (services.merchant_id svc)
             None (now create) (now create)],
   [pushed (thread (gen_random_uuid create))])
  /\ length (filter (conversations.between uid (services.merchant_id svc))
               (fst (handleContactMerchant lookup create s tbl))) =
     S (length (filter (conversations.between uid (services.merchant_id svc)) tbl)).
Proof.
  intros Hu Hs Hc Hfresh Hblind.
  assert (Hrun : handleContactMerchant lookup create s tbl =
                 (tbl ++ [conversations.mkRow (gen_random_uuid create) uid
                            (services.merchant_id svc) None (now create) (now create)],
                  [pushed (thread (gen_random_uuid create))])).
  { unfold handleContactMerchant. rewrite Hu, Hs, Hc.
    unfold conversations.insert. rewrite Hfresh.
    destruct (reachable lookup); [|reflexivity].
    destruct Hblind as [Hblind|Hblind]; [discriminate|].
    unfold conversations.single.
    destruct (filter (conversations.between uid (services.merchant_id svc)) tbl)
      as [|r [|r' t]]; try reflexivity.
    now contradiction Hblind. }
  split; [exact Hrun|]. rewrite Hrun. cbn [fst].
  rewrite filter_app, length_app. cbn [filter]. rewrite between_new. simpl. lia.
Qed.

Lemma contact_after_blind_lookup_creates_another_witness :
  handleContactMerchant (mkServer false "" "") (online 1) client_1 [client_conversation] =
  ([client_conversation] ++
   [conversations.mkRow (gen_random_uuid (online 1)) "client-1"
      (services.merchant_id courier_service) None (now (online 1)) (now (online 1))],
   [pushed (thread (gen_random_uuid (online 1)))])
  /\ length (filter (conversations.between "client-1"
                       (services.merchant_id courier_service))
               (fst (handleContactMerchant (mkServer false "" "") (online 1) client_1
                       [client_conversation]))) =
     S (length (filter (conversations.between "client-1"
                          (services.merchant_id courier_service))
                  [client_conversation])).
Proof.
  apply (contact_after_blind_lookup_creates_another "client-1" courier_service client_1
           [client_conversation] (mkServer false "" "") (online 1)); try reflexivity.
  now left.
Defined.

End Contact.

(** ** Removing an image from the strip *)

Section Images.

Import CreateServiceScreen.

Lemma filter_index_drop {A : Type} (index base : nat) (l : list A) :
  filter_index (fun i => negb (i =? index)%nat) base l =
  if (index <? base)%nat then l
  else firstn (index - base) l ++ skipn (S (index - base)) l.
Proof.
  revert base. induction l as [|x t IH]; intros base; simpl.
  - destruct (index <? base)%nat; [reflexivity|]. now rewrite firstn_nil.
  - rewrite IH. destruct (Nat.eqb_spec base index) as [->|Hne].
    + rewrite Nat.ltb_irrefl, Nat.sub_diag. simpl.
      destruct (Nat.ltb_spec index (S index)); [reflexivity | lia].
    + simpl. destruct (Nat.ltb_spec index base) as [Hlt|Hge].
      * destruct (Nat.ltb_spec index (S base)); [reflexivity | lia].
      * destruct (Nat.ltb_spec index (S base)); [lia|].
        replace (index - base) with (S (index - S base)) by lia. reflexivity.
Qed.

(** X11. [removeImage] takes out the image at the given position and
    nothing else: the images before it and after it stay, in order; a
    position past the end leaves the strip as it is. *)
Theorem removeImage_drops_one (index : nat) (images : list string) :
  removeImage index images = firstn index images ++ skipn (S index) images
  /\ (index < length images -> S (length (removeImage index images)) = length images)
  /\ (length images <= index -> removeImage index images = images).
Proof.
  assert (H : removeImage index images = firstn index images ++ skipn (S index) images).
  { unfold removeImage. rewrite filter_index_drop. simpl. now rewrite Nat.sub_0_r. }
  split; [exact H | split].
  - intros Hlt. rewrite H, length_app, length_firstn, length_skipn. lia.
  - intros Hge. rewrite H, firstn_all2, skipn_all2 by lia. apply app_nil_r.
Qed.

Lemma removeImage_drops_one_witness :
  removeImage 1 ["a.jpg"; "b.jpg"; "c.jpg"] =
  firstn 1 ["a.jpg"; "b.jpg"; "c.jpg"] ++ skipn 2 ["a.jpg"; "b.jpg"; "c.jpg"]
  /\ (1 < length ["a.jpg"; "b.jpg"; "c.jpg"] ->
      S (length (removeImage 1 ["a.jpg"; "b.jpg"; "c.jpg"])) =
      length ["a.jpg"; "b.jpg"; "c.jpg"])
  /\ (length ["a.jpg"; "b.jpg"; "c.jpg"] <= 1 ->
      removeImage 1 ["a.jpg"; "b.jpg"; "c.jpg"] = ["a.jpg"; "b.jpg"; "c.jpg"]).
Proof.
  exact (removeImage_drops_one 1 ["a.jpg"; "b.jpg"; "c.jpg"]).
Defined.

End Images.

(** ** Further properties of the offline queue *)

(** ** Further properties of the offline queue *)

Section QueueOrder.

Import useOfflineQueue.

Lemma executed_app (tr1 tr2 : list Event) :
  executed (tr1 ++ tr2) = executed tr1 ++ executed tr2.
Proof. unfold executed. apply flat_map_app. Qed.

Lemma executed_events_of (api : nat -> bool) (objs : list QueuedAction) (l : list nat) :
  (forall r, In r l -> r < length objs) ->
  executed (flat_map (events_of api objs) l) = l.
Proof.
  induction l as [|r t IH]; intros Hval; simpl; [reflexivity|].
  rewrite executed_app, IH by (intros x Hx; apply Hval; now right).
  unfold events_of. destruct (nth_error objs r) as [a|] eqn:Ea.
  - rewrite executed_app. unfold executeAction.
    destruct (mem_string (type a) known_types); cbn [fst snd].
    + destruct (api r); reflexivity.
    + reflexivity.
  - apply nth_error_None in Ea. specialize (Hval r (or_introl eq_refl)). lia.
Qed.

(** A run started by a closure that saw the array [q0], whether or
    not its save succeeds. *)
Lemma processQueue_any (api : nat -> bool) (stored : bool) (q0 : list nat) (h : Hook) :
  NoDup q0 -> q0 <> [] ->
  processQueue api stored q0 false h =
  setIsProcessing false
    (saveQueue stored (filter (kept api (objects h)) q0)
       (mkHook (fold_right (settle api) (objects h) q0) (queue h) true (isConnected h)
          (storage h) (trace h ++ flat_map (events_of api (objects h)) (rev q0)))).
Proof.
  intros Hnd Hne. unfold processQueue.
  assert (Hlen : (length q0 =? 0)%nat = false)
    by (destruct q0; [contradiction | reflexivity]).
  rewrite Hlen. cbn [orb]. cbn [setIsProcessing objects trace].
  rewrite (loop_whole api q0 (objects h) (trace h) Hnd). reflexivity.
Qed.

(** X12. A run executes the queued actions from the last added to the
    first: the most recent action goes first, whatever the calls return
    and whether or not the queue can be saved afterwards. *)
Theorem run_executes_newest_first (api : nat -> bool) (stored : bool) (h : Hook) :
  NoDup (queue h) ->
  (forall r, In r (queue h) -> r < length (objects h)) ->
  isConnected h = true ->
  isProcessing h = false ->
  executed (trace (effect api stored h)) = executed (trace h) ++ rev (queue h).
Proof.
  intros Hnd Hval Hc Hidle. unfold effect. rewrite Hc, Hidle.
  destruct (queue h) as [|x t] eqn:Eq; [simpl; now rewrite app_nil_r|].
  cbn [andb negb length Nat.ltb Nat.leb].
  rewrite (processQueue_any api stored (x :: t) h Hnd) by discriminate.
  assert (Hex : executed (trace h ++ flat_map (events_of api (objects h)) (rev (x :: t)))
                = executed (trace h) ++ rev (x :: t)).
  { rewrite executed_app, executed_events_of; [reflexivity|].
    intros r Hr. apply in_rev in Hr. now apply Hval. }
  destruct stored; cbn [saveQueue setIsProcessing trace].
  - exact Hex.
  - rewrite executed_app, Hex. simpl. now rewrite app_nil_r.
Qed.

Lemma run_executes_newest_first_witness :
  executed (trace (effect (always true) true three_waiting)) = [2; 1; 0]
  /\ executed (trace (effect (always true) true three_waiting)) =
     executed (trace three_waiting) ++ rev (queue three_waiting).
Proof.
  split; [reflexivity|].
  apply (run_executes_newest_first (always true) true three_waiting).
  - repeat constructor; simpl; intuition discriminate.
  - simpl. intros r [<-|[<-|[<-|[]]]]; lia.
  - reflexivity.
  - reflexivity.
Defined.

End QueueOrder.

Section QueueStore.

Import useOfflineQueue.

(** A run whose save succeeds, started by a closure that saw the
    array [q0]. *)
Lemma processQueue_run (api : nat -> bool) (q0 : list nat) (h : Hook) :
  NoDup q0 -> q0 <> [] ->
  processQueue api true q0 false h =
  mkHook (fold_right (settle api) (objects h) q0)
    (filter (kept api (objects h)) q0) false (isConnected h)
    (Some (snapshot (fold_right (settle api) (objects h) q0)
             (filter (kept api (objects h)) q0)))
    (trace h ++ flat_map (events_of api (objects h)) (rev q0)).
Proof.
  intros Hnd Hne. unfold processQueue.
  assert (Hlen : (length q0 =? 0)%nat = false)
    by (destruct q0; [contradiction | reflexivity]).
  rewrite Hlen. cbn [orb]. cbn [setIsProcessing objects trace].
  rewrite (loop_whole api q0 (objects h) (trace h) Hnd). reflexivity.
Qed.

(** X16. An action whose call succeeds leaves the queue in the run
    that executes it, whatever its retry count, and its object is not
    changed. An action of a type the hook does not know counts as a
    success: the call parameter is not consulted, a warning is logged
    and the action is gone without having been performed. *)
Theorem successful_action_leaves_the_queue
    (api : nat -> bool) (r : nat) (a : QueuedAction) (h : Hook) :
  isConnected h = true ->
  isProcessing h = false ->
  NoDup (queue h) ->
  In r (queue h) ->
  nth_error (objects h) r = Some a ->
  mem_string (type a) known_types = false \/ api r = true ->
  let h' := effect api true h in
  ~ In r (queue h')
  /\ nth_error (objects h') r = Some a
  /\ executions r (trace h') = S (executions r (trace h))
  /\ (mem_string (type a) known_types = false ->
      In (console_warn "Unknown action type:") (trace h')).
Proof.
  intros Hc Hidle Hnd Hin Ha Hok h'.
  assert (Hne : queue h <> []) by (intros E; rewrite E in Hin; contradiction).
  assert (Hsucc : fst (executeAction api r a) = true).
  { unfold executeAction. destruct (mem_string (type a) known_types); [|reflexivity].
    destruct Hok as [Hok|Hok]; [discriminate | exact Hok]. }
  assert (Hh' : h' = processQueue api true (queue h) false h).
  { subst h'. unfold effect. rewrite Hc, Hidle.
    destruct (queue h); [contradiction | reflexivity]. }
  rewrite Hh', processQueue_run by assumption. cbn [queue objects trace].
  split; [|split; [|split]].
  - intros Hk. apply filter_In in Hk. destruct Hk as [_ Hk].
    unfold kept in Hk. rewrite Ha, Hsucc in Hk. discriminate.
  - rewrite (sweep_at api (queue h) (objects h) r a Hnd Hin Ha). now rewrite Hsucc.
  - rewrite executions_app.
    rewrite (executions_once api (objects h) (rev (queue h)) r a)
      by (try apply NoDup_rev; try apply -> in_rev; assumption).
    lia.
  - intros Hunk. apply in_or_app. right. apply in_flat_map. exists r.
    split; [now apply -> in_rev|].
    unfold events_of. rewrite Ha. unfold executeAction. rewrite Hunk. simpl. tauto.
Qed.

Lemma successful_action_leaves_the_queue_witness :
  let h' := effect (always false) true unknown_waiting in
  ~ In 0 (queue h')
  /\ nth_error (objects h') 0 = Some (mkAction "1" "DELETE_ACCOUNT" "me" 1%Z 0)
  /\ executions 0 (trace h') = S (executions 0 (trace unknown_waiting))
  /\ (mem_string (type (mkAction "1" "DELETE_ACCOUNT" "me" 1%Z 0)) known_types = false ->
      In (console_warn "Unknown action type:") (trace h')).
Proof.
  apply (successful_action_leaves_the_queue (always false) 0
           (mkAction "1" "DELETE_ACCOUNT" "me" 1%Z 0) unknown_waiting).
  - reflexivity.
  - reflexivity.
  - repeat constructor. intros [].
  - now left.
  - reflexivity.
  - now left.
Defined.

End QueueStore.
